(** * DY-SV19T UART audio-module driver (dy_sv19t.py): frame codec,
    path validation, resynchronising receiver and the driver methods. *)

From Stdlib Require Import String Ascii ZArith List Bool Lia.
Import ListNotations.
Open Scope Z_scope.
Open Scope list_scope.

(** ** Frame codec *)

(** A byte string is a list of integers, each in [0, 255]. *)
Definition bytes := list Z.

Definition is_byte (b : Z) : Prop := 0 <= b <= 255.

(** The running checksum of [_build_frame] and [_parse_response]:
    [sm = 0; for b in ...: sm = (sm + b) & 0xFF]. *)
Definition checksum (l : bytes) : Z :=
  fold_left (fun sm b => Z.land (sm + b) 255) l 0.

(** [_build_frame(cmd, data)]: [bytearray(3 + len(data) + 1)] filled with
    [0xAA, cmd, len(data), data..., sm].  A bytearray slot keeps the low
    byte of the integer stored in it (MicroPython store semantics). *)
Definition _build_frame (cmd : Z) (data : bytes) : bytes :=
  let head := [0xAA; Z.land cmd 255; Z.land (Z.of_nat (length data)) 255] ++ data in
  head ++ [checksum head].

(** The dictionary [{'cmd': cmd, 'data': data}] returned on success. *)
Record Parsed := mkParsed { p_cmd : Z; p_data : bytes }.

(** [_parse_response(resp)]; [None] stands for the [ValueError] it raises. *)
Definition _parse_response (resp : bytes) : option Parsed :=
  if (length resp <? 4)%nat then None
  else if negb (nth 0 resp 0 =? 0xAA) then None
  else
    let cmd := nth 1 resp 0 in
    let n := nth 2 resp 0 in
    if negb (Z.of_nat (length resp) =? 4 + n - 0) then None
    else
      let sm := checksum (firstn (length resp - 1) resp) in
      if negb (sm =? last resp 0) then None
      else
        let data := if n =? 0 then [] else firstn (Z.to_nat n) (skipn 3 resp) in
        Some (mkParsed cmd data).

(** ** Resynchronising receiver *)

(** The local variables of the [_recv_response] loop. *)
Record RxState := mkRx { rx_state : Z; rx_buf : bytes; rx_need : Z }.

(** One [uart.read(1)] result per loop iteration: [None] for an empty read,
    [Some x] for the byte [x].  The list holds the reads made before the
    deadline [ticks_diff(ticks_ms(), t0) < timeout_ms] expires; running out
    of reads is the timeout, and the function returns [None]. *)
Fixpoint recv_loop (expected_cmd : option Z) (reads : list (option Z))
    (s : RxState) : option bytes :=
  match reads with
  | [] => None
  | None :: rest => recv_loop expected_cmd rest s
  | Some x :: rest =>
      if rx_state s =? 0 then
        if x =? 0xAA then recv_loop expected_cmd rest (mkRx 1 [0xAA] (rx_need s))
        else recv_loop expected_cmd rest s
      else if rx_state s =? 1 then
        let buf := rx_buf s ++ [x] in
        let need := if (length buf =? 3)%nat then 4 + nth 2 buf 0 else rx_need s in
        if (3 <=? length buf)%nat && (Z.of_nat (length buf) =? need) then
          match _parse_response buf with
          | None => recv_loop expected_cmd rest (mkRx 0 [] need)
          | Some parsed =>
              match expected_cmd with
              | None => Some buf
              | Some e =>
                  if p_cmd parsed =? e then Some buf
                  else recv_loop expected_cmd rest (mkRx 0 [] need)
              end
          end
        else recv_loop expected_cmd rest (mkRx 1 buf need)
      else recv_loop expected_cmd rest s
  end.

(** [_recv_response(expected_cmd)]: [buf = bytearray(); state = 0; need = 0]. *)
Definition _recv_response (expected_cmd : option Z) (reads : list (option Z))
    : option bytes :=
  recv_loop expected_cmd reads (mkRx 0 [] 0).

(** ** Driver state and methods *)

(** The attributes of a [DYSV19T] instance, with the bytes written to the
    UART so far ([uart_tx]).  The attribute [self.eq] is [eq_mode] here. *)
Record Driver := mkDriver {
  uart_tx : bytes;
  timeout_ms : Z;
  play_state : Z;
  current_disk : Z;
  volume : Z;
  play_mode : Z;
  eq_mode : Z;
  dac_channel : Z
}.

(** The exceptions the methods raise. *)
Inductive Exn := ValueError | IOError.

Inductive Result (A : Type) := Ok (a : A) | Err (e : Exn).
Arguments Ok {A} a.
Arguments Err {A} e.

(** A method runs on the driver state; an exception keeps the state
    reached when it was raised (bytes already written stay written). *)
Definition M (A : Type) := Driver -> Result A * Driver.

Definition ret {A} (a : A) : M A := fun d => (Ok a, d).
Definition raise {A} (e : Exn) : M A := fun d => (Err e, d).
Definition bind {A B} (m : M A) (k : A -> M B) : M B :=
  fun d => match m d with
           | (Ok a, d') => k a d'
           | (Err e, d') => (Err e, d')
           end.
Notation "x <- m ;; k" := (bind m (fun x => k))
  (at level 61, m at next level, right associativity).
Notation "m ;;; k" := (bind m (fun _ => k))
  (at level 61, right associativity).

Definition modify (f : Driver -> Driver) : M unit := fun d => (Ok tt, f d).
Definition gets {A} (f : Driver -> A) : M A := fun d => (Ok (f d), d).

Definition set_uart_tx v d :=
  mkDriver v (timeout_ms d) (play_state d) (current_disk d) (volume d)
           (play_mode d) (eq_mode d) (dac_channel d).
Definition set_play_state v d :=
  mkDriver (uart_tx d) (timeout_ms d) v (current_disk d) (volume d)
           (play_mode d) (eq_mode d) (dac_channel d).
Definition set_current_disk v d :=
  mkDriver (uart_tx d) (timeout_ms d) (play_state d) v (volume d)
           (play_mode d) (eq_mode d) (dac_channel d).

(** [self.uart.write(frame)]: the transport accepts the bytes. *)
Definition uart_write (frame : bytes) : M unit :=
  modify (fun d => set_uart_tx (uart_tx d ++ frame) d).

(** Class constants. *)
Definition PLAY_STOP := 0x00.
Definition PLAY_PLAY := 0x01.
Definition PLAY_PAUSE := 0x02.
Definition DISK_USB := 0x00.
Definition DISK_SD := 0x01.
Definition DISK_FLASH := 0x02.

(** [_u16(value)]. *)
Definition _u16 (value : Z) : M (Z * Z) :=
  if negb ((0 <=? value) && (value <=? 0xFFFF)) then raise ValueError
  else ret (Z.land (Z.shiftr value 8) 0xFF, Z.land value 0xFF).

(** [_validate_disk(disk)]. *)
Definition _validate_disk (disk : Z) : M Z :=
  if existsb (Z.eqb disk) [DISK_USB; DISK_SD; DISK_FLASH] then ret disk
  else raise ValueError.

(** [_send_frame(cmd)]: write the frame with an empty payload. *)
Definition _send_frame (cmd : Z) : M unit :=
  uart_write (_build_frame cmd []).

(** [play()]. *)
Definition play : M unit :=
  _send_frame 0x02;;; modify (set_play_state PLAY_PLAY).

(** [set_loop_count(count)]. *)
Definition set_loop_count (count : Z) : M unit :=
  hl <- _u16 count ;;
  let '(H, L) := hl in
  uart_write (_build_frame 0x19 [H; L]);;;
  mode <- gets play_mode ;;
  if existsb (Z.eqb mode) [0x02; 0x03; 0x05; 0x06; 0x07] then raise ValueError
  else ret tt.

(** ** Path validation *)

Definition ord (ch : ascii) : Z := Z.of_nat (nat_of_ascii ch).

(** The body of the character loop of [_validate_path]: [true] when the
    loop [continue]s on [ch], [false] when it raises. *)
Definition path_char_ok (ch : ascii) : bool :=
  let o := ord ch in
  if existsb (Ascii.eqb ch) ["/"; "*"; "."]%char then true
  else if Ascii.eqb ch "_"%char then true
  else if (48 <=? o) && (o <=? 57) then true
  else if (65 <=? o) && (o <=? 90) then true
  else false.

Fixpoint chars_ok (s : string) : bool :=
  match s with
  | EmptyString => true
  | String ch rest => path_char_ok ch && chars_ok rest
  end.

(** The segment loop [for ch in path[1:]] with its accumulator [seg];
    [false] when it raises. *)
Fixpoint seg_loop (s : string) (seg : list ascii) : bool :=
  match s with
  | EmptyString => true
  | String ch rest =>
      if Ascii.eqb ch "/"%char then
        if (1 <=? length seg)%nat && (length seg <=? 8)%nat then seg_loop rest []
        else false
      else if existsb (Ascii.eqb ch) ["*"; "."]%char then true
      else seg_loop rest (seg ++ [ch])
  end.

(** [path.encode('ascii')]. *)
Fixpoint encode_ascii (s : string) : bytes :=
  match s with
  | EmptyString => []
  | String ch rest => ord ch :: encode_ascii rest
  end.

(** [_validate_path(path)]; [None] stands for the [ValueError]. *)
Definition _validate_path (path : string) : option bytes :=
  match path with
  | EmptyString => None
  | String c0 tl =>
      if negb (Ascii.eqb c0 "/"%char) then None
      else if negb (chars_ok path) then None
      else if negb (seg_loop tl []) then None
      else Some (encode_ascii path)
  end.

(** [path.replace('.', '*')]. *)
Fixpoint replace_dot (s : string) : string :=
  match s with
  | EmptyString => EmptyString
  | String ch rest =>
      String (if Ascii.eqb ch "."%char then "*"%char else ch) (replace_dot rest)
  end.

Definition validate_path_m (path : string) : M bytes :=
  match _validate_path path with
  | Some pb => ret pb
  | None => raise ValueError
  end.

(** [play_disk_path(disk, path)]. *)
Definition play_disk_path (disk : Z) (path : string) : M unit :=
  let path := replace_dot path in
  d <- _validate_disk disk ;;
  pb <- validate_path_m path ;;
  uart_write (_build_frame 0x08 ([d] ++ pb));;;
  modify (set_play_state PLAY_PLAY);;;
  modify (set_current_disk d).

(** [insert_path(disk, path)]. *)
Definition insert_path (disk : Z) (path : string) : M unit :=
  let path := replace_dot path in
  d <- _validate_disk disk ;;
  pb <- validate_path_m path ;;
  uart_write (_build_frame 0x17 ([d] ++ pb)).

(** ** Query methods *)

(** The values a query returns besides [None]: an int, the decoded short
    file name (its ASCII codes) or the [(h, m, s)] tuple. *)
Inductive QResult := QInt (v : Z) | QStr (s : bytes) | QTime (h m s : Z).

(** [parsed = self._parse_response(resp)]; a failure raises. *)
Definition parse_m (resp : bytes) : M Parsed :=
  match _parse_response resp with
  | Some p => ret p
  | None => raise ValueError
  end.

(** The common head of every query: send the request frame, wait for the
    response with the same command code; [if not resp: return None],
    otherwise continue with the parsed DATA. *)
Definition query_with (cmd : Z) (reads : list (option Z))
    (k : bytes -> M (option QResult)) : M (option QResult) :=
  _send_frame cmd;;;
  match _recv_response (Some cmd) reads with
  | None | Some [] => ret None
  | Some resp => parsed <- parse_m resp ;; k (p_data parsed)
  end.

Definition be16 (d : bytes) : Z := Z.lor (Z.shiftl (nth 0 d 0) 8) (nth 1 d 0).

(** [query_status()]. *)
Definition query_status (reads : list (option Z)) : M (option QResult) :=
  query_with 0x01 reads (fun d =>
    match d with
    | [st] => modify (set_play_state st);;; ret (Some (QInt st))
    | _ => ret None
    end).

(** [query_online_disks()]. *)
Definition query_online_disks (reads : list (option Z)) : M (option QResult) :=
  query_with 0x09 reads (fun d =>
    match d with [b] => ret (Some (QInt b)) | _ => ret None end).

(** [query_current_disk()]. *)
Definition query_current_disk (reads : list (option Z)) : M (option QResult) :=
  query_with 0x0A reads (fun d =>
    match d with
    | [b] => modify (set_current_disk b);;; ret (Some (QInt b))
    | _ => ret None
    end).

(** The four two-byte queries [(d[0] << 8) | d[1]]. *)
Definition query_u16 (cmd : Z) (reads : list (option Z)) : M (option QResult) :=
  query_with cmd reads (fun d =>
    if (length d =? 2)%nat then ret (Some (QInt (be16 d))) else ret None).

Definition query_total_tracks := query_u16 0x0C.
Definition query_current_track := query_u16 0x0D.
Definition query_folder_first_track := query_u16 0x11.
Definition query_folder_total_tracks := query_u16 0x12.

(** [query_short_filename()]: [d.decode('ascii') if d else ""]; a decoding
    error gives [None]. *)
Definition query_short_filename (reads : list (option Z)) : M (option QResult) :=
  query_with 0x1E reads (fun d =>
    match d with
    | [] => ret (Some (QStr []))
    | _ => if forallb (fun b => b <? 128) d then ret (Some (QStr d)) else ret None
    end).

(** [query_current_track_time()]. *)
Definition query_current_track_time (reads : list (option Z)) : M (option QResult) :=
  query_with 0x24 reads (fun d =>
    match d with [h; m; s] => ret (Some (QTime h m s)) | _ => ret None end).

(** The query methods of the class. *)
Inductive Query :=
  | QueryStatus | QueryOnlineDisks | QueryCurrentDisk | QueryTotalTracks
  | QueryCurrentTrack | QueryFolderFirstTrack | QueryFolderTotalTracks
  | QueryShortFilename | QueryCurrentTrackTime.

Definition query_cmd (q : Query) : Z :=
  match q with
  | QueryStatus => 0x01 | QueryOnlineDisks => 0x09 | QueryCurrentDisk => 0x0A
  | QueryTotalTracks => 0x0C | QueryCurrentTrack => 0x0D
  | QueryFolderFirstTrack => 0x11 | QueryFolderTotalTracks => 0x12
  | QueryShortFilename => 0x1E | QueryCurrentTrackTime => 0x24
  end.

Definition run_query (q : Query) : list (option Z) -> M (option QResult) :=
  match q with
  | QueryStatus => query_status
  | QueryOnlineDisks => query_online_disks
  | QueryCurrentDisk => query_current_disk
  | QueryTotalTracks => query_total_tracks
  | QueryCurrentTrack => query_current_track
  | QueryFolderFirstTrack => query_folder_first_track
  | QueryFolderTotalTracks => query_folder_total_tracks
  | QueryShortFilename => query_short_filename
  | QueryCurrentTrackTime => query_current_track_time
  end.

(** The cached attributes of the driver. *)
Definition cache (d : Driver) : Z * Z * Z * Z * Z * Z :=
  (play_state d, current_disk d, volume d, play_mode d, eq_mode d, dac_channel d).

(** A freshly constructed driver with the default arguments of
    [__init__]: volume 30, disk USB, mode single-stop, DAC channel MP3,
    timeout 500 ms, state stopped, EQ normal. *)
Definition default_driver : Driver := mkDriver [] 500 PLAY_STOP DISK_USB 30 0x02 0x00 0x00.

(** ** Further driver methods *)

Definition set_volume_attr v d :=
  mkDriver (uart_tx d) (timeout_ms d) (play_state d) (current_disk d) v
           (play_mode d) (eq_mode d) (dac_channel d).
Definition set_play_mode_attr v d :=
  mkDriver (uart_tx d) (timeout_ms d) (play_state d) (current_disk d) (volume d)
           v (eq_mode d) (dac_channel d).
Definition set_eq_attr v d :=
  mkDriver (uart_tx d) (timeout_ms d) (play_state d) (current_disk d) (volume d)
           (play_mode d) v (dac_channel d).
Definition set_dac_channel_attr v d :=
  mkDriver (uart_tx d) (timeout_ms d) (play_state d) (current_disk d) (volume d)
           (play_mode d) (eq_mode d) v.

Definition DISK_NONE := 0xFF.
Definition MODE_SINGLE_STOP := 0x02.
Definition EQ_NORMAL := 0x00.
Definition CH_MP3 := 0x00.
Definition VOLUME_MIN := 0.
Definition VOLUME_MAX := 30.

Definition MODES := [0x00; 0x01; 0x02; 0x03; 0x04; 0x05; 0x06; 0x07].
Definition EQS := [0x00; 0x01; 0x02; 0x03; 0x04].
Definition CHANNELS := [0x00; 0x01; 0x02].

(** [__init__(uart, default_volume, default_disk, default_play_mode,
    default_dac_channel, timeout_ms)]; [uart_ok] says whether [uart] is not
    [None] and has [read] and [write]. *)
Definition __init__ (uart_ok : bool) (default_volume default_disk default_play_mode
    default_dac_channel timeout : Z) : Result Driver :=
  if negb uart_ok then Err ValueError
  else if negb ((VOLUME_MIN <=? default_volume) && (default_volume <=? VOLUME_MAX))
  then Err ValueError
  else if negb (existsb (Z.eqb default_disk) [DISK_USB; DISK_SD; DISK_FLASH; DISK_NONE])
  then Err ValueError
  else if negb (existsb (Z.eqb default_play_mode) MODES) then Err ValueError
  else if negb (existsb (Z.eqb default_dac_channel) CHANNELS) then Err ValueError
  else if timeout <=? 0 then Err ValueError
  else Ok (mkDriver [] timeout PLAY_STOP default_disk default_volume
                    default_play_mode EQ_NORMAL default_dac_channel).

(** [_validate_mode], [_validate_eq], [_validate_channel]. *)
Definition _validate_mode (mode : Z) : M Z :=
  if existsb (Z.eqb mode) MODES then ret mode else raise ValueError.
Definition _validate_eq (eq : Z) : M Z :=
  if existsb (Z.eqb eq) EQS then ret eq else raise ValueError.
Definition _validate_channel (ch : Z) : M Z :=
  if existsb (Z.eqb ch) CHANNELS then ret ch else raise ValueError.

(** [pause()] and [stop()]. *)
Definition pause : M unit :=
  _send_frame 0x03;;; modify (set_play_state PLAY_PAUSE).
Definition stop : M unit :=
  _send_frame 0x04;;; modify (set_play_state PLAY_STOP).

(** [select_track(track_no, play)]. *)
Definition select_track (track_no : Z) (play : bool) : M unit :=
  hl <- _u16 track_no ;;
  let '(H, L) := hl in
  if play then uart_write (_build_frame 0x07 [H; L]);;; modify (set_play_state PLAY_PLAY)
  else uart_write (_build_frame 0x1F [H; L]).

(** [insert_track(disk, track_no)]. *)
Definition insert_track (disk track_no : Z) : M unit :=
  d <- _validate_disk disk ;;
  hl <- _u16 track_no ;;
  let '(H, L) := hl in
  uart_write (_build_frame 0x16 [d; H; L]).

(** [set_volume(vol)]. *)
Definition set_volume (vol : Z) : M unit :=
  if negb ((VOLUME_MIN <=? vol) && (vol <=? VOLUME_MAX)) then raise ValueError
  else uart_write (_build_frame 0x13 [vol]);;; modify (set_volume_attr vol).

(** [set_eq(eq)], [set_dac_channel(ch)], [set_play_mode(mode)]. *)
Definition set_eq (eq : Z) : M unit :=
  e <- _validate_eq eq ;;
  uart_write (_build_frame 0x1A [e]);;; modify (set_eq_attr e).
Definition set_dac_channel (ch : Z) : M unit :=
  c <- _validate_channel ch ;;
  uart_write (_build_frame 0x1D [c]);;; modify (set_dac_channel_attr c).
Definition set_play_mode (mode : Z) : M unit :=
  m <- _validate_mode mode ;;
  uart_write (_build_frame 0x18 [m]);;; modify (set_play_mode_attr m).

(** [repeat_area(start_min, start_sec, end_min, end_sec)]: all four are
    checked before the frame is built. *)
Definition repeat_area (start_min start_sec end_min end_sec : Z) : M unit :=
  if negb (forallb (fun v => (0 <=? v) && (v <=? 59))
                   [start_min; start_sec; end_min; end_sec])
  then raise ValueError
  else uart_write (_build_frame 0x20 [start_min; start_sec; end_min; end_sec]).

(** [seek_back(seconds)] and [seek_forward(seconds)]. *)
Definition seek_back (seconds : Z) : M unit :=
  hl <- _u16 seconds ;; let '(H, L) := hl in uart_write (_build_frame 0x22 [H; L]).
Definition seek_forward (seconds : Z) : M unit :=
  hl <- _u16 seconds ;; let '(H, L) := hl in uart_write (_build_frame 0x23 [H; L]).

(** The check [48 <= o <= 57 or 65 <= o <= 90] on each character of a
    short name. *)
Definition short_name_char_ok (ch : ascii) : bool :=
  let o := ord ch in ((48 <=? o) && (o <=? 57)) || ((65 <=? o) && (o <=? 90)).

(** The loop [for s in short_names] building [bb]; [None] when it raises. *)
Fixpoint combination_bytes (short_names : list string) : option bytes :=
  match short_names with
  | [] => Some []
  | s :: rest =>
      if negb (String.length s =? 2)%nat then None
      else if negb (forallb short_name_char_ok (list_ascii_of_string s)) then None
      else match combination_bytes rest with
           | Some bb => Some (encode_ascii s ++ bb)
           | None => None
           end
  end.

(** [start_combination_playlist(short_names)] on a list of strings. *)
Definition start_combination_playlist (short_names : list string) : M unit :=
  match short_names with
  | [] => raise ValueError
  | _ =>
      match combination_bytes short_names with
      | None => raise ValueError
      | Some bb => uart_write (_build_frame 0x1B bb)
      end
  end.

(** [check_play_time_send()]: waits for the [0x25] report; it sends nothing.
    Falling off the end of the function returns [None]. *)
Definition check_play_time_send (reads : list (option Z))
    : M (option (Z * Z * Z)) :=
  match _recv_response (Some 0x25) reads with
  | None | Some [] => ret None
  | Some resp =>
      parsed <- parse_m resp ;;
      match p_data parsed with
      | [h; m; s] => ret (Some (h, m, s))
      | _ => ret None
      end
  end.

(** The commands that only send a frame with an empty payload. *)
Definition prev_track : M unit := _send_frame 0x05.
Definition next_track : M unit := _send_frame 0x06.
Definition end_insert : M unit := _send_frame 0x10.
Definition volume_up : M unit := _send_frame 0x14.
Definition volume_down : M unit := _send_frame 0x15.
Definition end_repeat : M unit := _send_frame 0x21.
Definition end_combination_playlist : M unit := _send_frame 0x1C.
Definition enable_play_time_send : M unit := _send_frame 0x25.
Definition disable_play_time_send : M unit := _send_frame 0x26.

(** ** Caller: [musicTask] (tasks/sensor_task.py) *)

Record MusicTask := mkTask { count : Z; time_segment : Z }.

(** [musicTask.tick()] with the driver it holds; the [print] calls are
    console output and are left out. *)
Definition tick (t : MusicTask) (reads : list (option Z)) (d : Driver)
    : Result unit * MusicTask * Driver :=
  let t1 :=
    if negb (count t =? 0) then
      let ts := time_segment t + 1 in
      if 25 <=? ts then mkTask 0 0 else mkTask (count t) ts
    else t in
  if 3 <=? count t1 then
    let t2 := mkTask 0 (time_segment t1) in
    match query_status reads d with
    | (Err e, d1) => (Err e, t2, d1)
    | (Ok st, d1) =>
        let '(r, d2) :=
          match st with
          | Some (QInt 1) => stop d1
          | _ => play d1
          end in (r, t2, d2)
    end
  else (Ok tt, t1, d).

(** ** Specification-side definitions *)

(** Sum of a byte list. *)
Definition byte_sum (l : bytes) : Z := fold_right Z.add 0 l.

(** The path charset of the specification: the separator, [*], [.], [_],
    the digits and the uppercase letters. *)
Definition allowed_chars : list ascii :=
  list_ascii_of_string "/*._0123456789ABCDEFGHIJKLMNOPQRSTUVWXYZ".

(** Split a character list at every separator ['/']. *)
Fixpoint split_slash (l : list ascii) : list (list ascii) :=
  match l with
  | [] => [[]]
  | c :: r =>
      if Ascii.eqb c "/"%char then [] :: split_slash r
      else match split_slash r with
           | p :: ps => (c :: p) :: ps
           | [] => [[c]]
           end
  end.

Definition is_fmt (c : ascii) : bool := Ascii.eqb c "*"%char || Ascii.eqb c "."%char.

(** The characters before the first format symbol [*] or [.]. *)
Fixpoint upto_fmt (l : list ascii) : list ascii :=
  match l with
  | [] => []
  | c :: r => if is_fmt c then [] else c :: upto_fmt r
  end.

(** The directory segments of a path: after the leading character and before
    the first [*] or [.], the pieces of text closed by a separator. *)
Definition dir_segments (s : string) : list (list ascii) :=
  match list_ascii_of_string s with
  | [] => []
  | _ :: body => removelast (split_slash (upto_fmt body))
  end.

(** All ['/']-separated components after the leading separator. *)
Definition all_segments (s : string) : list (list ascii) :=
  match list_ascii_of_string s with
  | [] => []
  | _ :: body => split_slash body
  end.

(** What the loop does once a whole declared-length frame [l] is buffered. *)
Definition frame_done (e : option Z) (l : bytes) (rest : list (option Z)) : option bytes :=
  match _parse_response l with
  | None => recv_loop e rest (mkRx 0 [] (4 + nth 2 l 0))
  | Some parsed =>
      match e with
      | None => Some l
      | Some c =>
          if p_cmd parsed =? c then Some l
          else recv_loop e rest (mkRx 0 [] (4 + nth 2 l 0))
      end
  end.

Definition seg_ok (p : list ascii) : bool := (1 <=? length p)%nat && (length p <=? 8)%nat.

Definition prepend (acc : list ascii) (ps : list (list ascii)) : list (list ascii) :=
  match ps with
  | [] => [acc]
  | p :: ps' => (acc ++ p) :: ps'
  end.

(** The short-name charset of the combination playlist: digits and
    uppercase letters. *)
Definition name_chars : list ascii :=
  list_ascii_of_string "0123456789ABCDEFGHIJKLMNOPQRSTUVWXYZ".

Definition short_name_ok (s : string) : Prop :=
  String.length s = 2%nat /\ forall ch, In ch (list_ascii_of_string s) -> In ch name_chars.

Definition short_name_okb (s : string) : bool :=
  (String.length s =? 2)%nat && forallb short_name_char_ok (list_ascii_of_string s).

(** ** Frame codec: lemmas *)

Lemma land255 (x : Z) : Z.land x 255 = x mod 256.
Proof. change 255 with (Z.ones 8). rewrite Z.land_ones by lia. reflexivity. Qed.

Lemma land255_byte (x : Z) : 0 <= x <= 255 -> Z.land x 255 = x.
Proof. intros. rewrite land255. apply Z.mod_small. lia. Qed.

Lemma checksum_from (l : bytes) (a : Z) :
  fold_left (fun sm b => Z.land (sm + b) 255) l (a mod 256) = (a + byte_sum l) mod 256.
Proof.
  revert a; induction l as [|b l IH]; intros a; simpl.
  - now rewrite Z.add_0_r.
  - rewrite land255, Zplus_mod_idemp_l, IH. f_equal. lia.
Qed.

Lemma checksum_sum (l : bytes) : checksum l = byte_sum l mod 256.
Proof. exact (checksum_from l 0). Qed.

Lemma last_snoc (l : bytes) (x d : Z) : last (l ++ [x]) d = x.
Proof.
  induction l as [|a l IH]; [reflexivity|].
  simpl. destruct (l ++ [x]) eqn:E; [destruct l; discriminate|]. exact IH.
Qed.

Lemma parse_response_success (raw : bytes) :
  (4 <= length raw)%nat -> nth 0 raw 0 = 0xAA ->
  Z.of_nat (length raw) = 4 + nth 2 raw 0 ->
  checksum (removelast raw) = last raw 0 ->
  _parse_response raw =
    Some (mkParsed (nth 1 raw 0) (firstn (Z.to_nat (nth 2 raw 0)) (skipn 3 raw))).
Proof.
  intros H1 H2 H3 H4. unfold _parse_response.
  rewrite (proj2 (Nat.ltb_ge _ _) H1), H2, Z.eqb_refl. cbn [negb].
  replace (Z.of_nat (length raw) =? 4 + nth 2 raw 0 - 0) with true
    by (symmetry; apply Z.eqb_eq; lia).
  rewrite removelast_firstn_len, <- Nat.sub_1_r in H4.
  rewrite H4, Z.eqb_refl. cbn [negb].
  destruct (nth 2 raw 0 =? 0) eqn:E; [|reflexivity].
  apply Z.eqb_eq in E. rewrite E. reflexivity.
Qed.

Lemma parse_response_failure (raw : bytes) :
  _parse_response raw = None ->
  (length raw < 4)%nat \/ nth 0 raw 0 <> 0xAA \/
  Z.of_nat (length raw) <> 4 + nth 2 raw 0 \/
  checksum (removelast raw) <> last raw 0.
Proof.
  intros H. unfold _parse_response in H.
  rewrite removelast_firstn_len, <- Nat.sub_1_r.
  destruct (length raw <? 4)%nat eqn:E1; [left; now apply Nat.ltb_lt|].
  destruct (nth 0 raw 0 =? 0xAA) eqn:E2; cbn [negb] in H.
  2: { right; left. now apply Z.eqb_neq. }
  destruct (Z.of_nat (length raw) =? 4 + nth 2 raw 0 - 0) eqn:E3; cbn [negb] in H.
  2: { right; right; left. apply Z.eqb_neq in E3. lia. }
  destruct (checksum (firstn (length raw - 1) raw) =? last raw 0) eqn:E4;
    cbn [negb] in H.
  - destruct (nth 2 raw 0 =? 0); discriminate.
  - right; right; right. now apply Z.eqb_neq.
Qed.

Lemma build_frame_parses (cmd : Z) (payload : bytes) :
  is_byte cmd -> Forall is_byte payload -> (length payload <= 255)%nat ->
  _parse_response (_build_frame cmd payload) = Some (mkParsed cmd payload).
Proof.
  intros Hc Hp Hl. unfold _build_frame, is_byte in *.
  rewrite (land255_byte cmd) by lia.
  rewrite (land255_byte (Z.of_nat (length payload))) by lia.
  rewrite parse_response_success.
  - cbn [nth app skipn]. rewrite Nat2Z.id, firstn_app, Nat.sub_diag, firstn_all.
    simpl. now rewrite app_nil_r.
  - rewrite length_app. simpl. lia.
  - reflexivity.
  - cbn [nth app length]. rewrite length_app. cbn [length]. lia.
  - rewrite removelast_last, last_snoc. reflexivity.
Qed.
(** ** Receiver: lemmas *)

(** Reads that bring no start byte leave the seeking state unchanged. *)
Lemma skip_junk (e : option Z) (junk rest : list (option Z)) (b : bytes) (n : Z) :
  Forall (fun r => r <> Some 0xAA) junk ->
  recv_loop e (junk ++ rest) (mkRx 0 b n) = recv_loop e rest (mkRx 0 b n).
Proof.
  intros H. induction H as [|[x|] junk Hx _ IH]; simpl.
  - reflexivity.
  - destruct (x =? 0xAA) eqn:E; [apply Z.eqb_eq in E; congruence|]. apply IH.
  - apply IH.
Qed.

(** Accumulation: from the collecting state with the prefix [pre] of a
    declared-length frame, the loop reads the rest [suf] of it and then
    examines the whole frame. *)
Lemma collect_frame (e : option Z) (suf pre : bytes) (need : Z) (rest : list (option Z)) :
  (1 <= length pre)%nat ->
  ((3 <= length pre)%nat -> need = 4 + nth 2 pre 0) ->
  (4 <= length (pre ++ suf))%nat ->
  Z.of_nat (length (pre ++ suf)) = 4 + nth 2 (pre ++ suf) 0 ->
  suf <> [] ->
  recv_loop e (map Some suf ++ rest) (mkRx 1 pre need) = frame_done e (pre ++ suf) rest.
Proof.
  revert pre need. induction suf as [|x suf IH]; intros pre need H1 Hneed H4 Hlen Hne;
    [congruence|].
  rewrite length_app in H4. cbn [length] in H4.
  cbn [map app recv_loop rx_state rx_buf rx_need Z.eqb Pos.eqb].
  set (buf := pre ++ [x]).
  assert (Hb : length buf = S (length pre)) by (unfold buf; rewrite length_app; simpl; lia).
  assert (Hl : pre ++ x :: suf = buf ++ suf) by (unfold buf; rewrite <- app_assoc; reflexivity).
  rewrite Hl in Hlen |- *.
  destruct suf as [|y suf'].
  - (* the last byte of the frame *)
    rewrite app_nil_r in Hlen |- *. cbn [length] in H4.
    assert (Hn2 : nth 2 buf 0 = nth 2 pre 0) by (unfold buf; apply app_nth1; lia).
    replace (length buf =? 3)%nat with false by (symmetry; apply Nat.eqb_neq; lia).
    rewrite Hneed by lia.
    replace ((3 <=? length buf)%nat && (Z.of_nat (length buf) =? 4 + nth 2 pre 0))
      with true by (symmetry; apply andb_true_iff; split;
                    [apply Nat.leb_le; lia | apply Z.eqb_eq; lia]).
    unfold frame_done. rewrite Hn2. reflexivity.
  - (* an inner byte *)
    pose proof Hlen as Hlen'. rewrite length_app in Hlen'. cbn [length] in Hlen'.
    assert (Hn2 : (3 <= length buf)%nat -> nth 2 (buf ++ y :: suf') 0 = nth 2 buf 0)
      by (intros; apply app_nth1; lia).
    set (need' := if (length buf =? 3)%nat then 4 + nth 2 buf 0 else need).
    assert (Hneed' : (3 <= length buf)%nat -> need' = 4 + nth 2 buf 0).
    { intros H3. unfold need'. destruct (length buf =? 3)%nat eqn:E; [reflexivity|].
      apply Nat.eqb_neq in E. rewrite Hneed by lia.
      unfold buf. f_equal. symmetry. apply app_nth1. lia. }
    replace ((3 <=? length buf)%nat && (Z.of_nat (length buf) =? need')) with false.
    + apply IH; [lia|exact Hneed'| |exact Hlen|discriminate].
      rewrite length_app. cbn [length] in *. lia.
    + symmetry. apply andb_false_iff.
      destruct (Nat.le_gt_cases 3 (length buf)) as [H3|H3].
      * right. apply Z.eqb_neq. rewrite Hneed' by lia. rewrite <- Hn2 by lia. lia.
      * left. apply Nat.leb_gt. lia.
Qed.

(** A declared-length frame met while seeking is read whole and then examined. *)
Lemma seek_frame (e : option Z) (l : bytes) (rest : list (option Z)) (b : bytes) (n : Z) :
  nth 0 l 0 = 0xAA -> (4 <= length l)%nat ->
  Z.of_nat (length l) = 4 + nth 2 l 0 ->
  recv_loop e (map Some l ++ rest) (mkRx 0 b n) = frame_done e l rest.
Proof.
  intros H0 H4 Hlen. destruct l as [|x t]; [simpl in H4; lia|].
  simpl in H0; subst x. cbn [map app recv_loop rx_state Z.eqb Pos.eqb].
  apply (collect_frame e t [0xAA]); try (simpl; lia); [exact H4|exact Hlen|].
  destruct t; [simpl in H4; lia|discriminate].
Qed.

(** A frame built by [_build_frame] is a declared-length frame. *)
Lemma build_frame_shape (cmd : Z) (payload : bytes) :
  (length payload <= 255)%nat ->
  nth 0 (_build_frame cmd payload) 0 = 0xAA /\
  (4 <= length (_build_frame cmd payload))%nat /\
  Z.of_nat (length (_build_frame cmd payload)) = 4 + nth 2 (_build_frame cmd payload) 0.
Proof.
  intros Hl. unfold _build_frame.
  rewrite (land255_byte (Z.of_nat (length payload))) by lia.
  cbn [nth app length]. rewrite length_app. cbn [length]. split; [reflexivity|lia].
Qed.

(** ** Path validation: lemmas *)

Lemma split_slash_nonempty (l : list ascii) : split_slash l <> [].
Proof.
  destruct l as [|c r]; simpl; [discriminate|].
  destruct (Ascii.eqb c "/"%char); [discriminate|].
  destruct (split_slash r); discriminate.
Qed.

Lemma removelast_cons_ne {A} (x : A) (l : list A) :
  l <> [] -> removelast (x :: l) = x :: removelast l.
Proof. destruct l; [congruence|reflexivity]. Qed.

(** The segment loop checks exactly the directory segments. *)
Lemma seg_loop_spec (w : string) (acc : list ascii) :
  seg_loop w acc =
  forallb seg_ok (removelast (prepend acc (split_slash (upto_fmt (list_ascii_of_string w))))).
Proof.
  revert acc. induction w as [|c w IH]; intros acc; [reflexivity|].
  cbn [seg_loop list_ascii_of_string upto_fmt].
  destruct (Ascii.eqb c "/"%char) eqn:Es.
  - apply Ascii.eqb_eq in Es. subst c. cbn [is_fmt Ascii.eqb Bool.eqb orb].
    cbn [split_slash Ascii.eqb Bool.eqb prepend]. rewrite app_nil_r.
    rewrite removelast_cons_ne by apply split_slash_nonempty.
    cbn [forallb]. fold (seg_ok acc).
    destruct (seg_ok acc); [|reflexivity]. cbn [andb].
    rewrite IH. f_equal. f_equal.
    destruct (split_slash (upto_fmt (list_ascii_of_string w))) eqn:E;
      [exfalso; exact (split_slash_nonempty _ E)|reflexivity].
  - destruct (existsb (Ascii.eqb c) ["*"; "."]%char) eqn:Ef.
    + replace (is_fmt c) with true.
      * reflexivity.
      * unfold is_fmt. simpl in Ef. rewrite orb_false_r in Ef.
        rewrite (Ascii.eqb_sym c "*"%char), (Ascii.eqb_sym c "."%char) in *. now rewrite Ef.
    + replace (is_fmt c) with false.
      * cbn [split_slash]. rewrite Es. rewrite IH.
        destruct (split_slash (upto_fmt (list_ascii_of_string w))) as [|p ps] eqn:E;
          [exfalso; exact (split_slash_nonempty _ E)|].
        cbn [prepend]. now rewrite <- app_assoc.
      * unfold is_fmt. simpl in Ef. rewrite orb_false_r in Ef.
        rewrite (Ascii.eqb_sym c "*"%char), (Ascii.eqb_sym c "."%char) in *. now rewrite Ef.
Qed.

Lemma chars_ok_spec (s : string) :
  chars_ok s = forallb path_char_ok (list_ascii_of_string s).
Proof. induction s as [|c s IH]; simpl; [reflexivity|now rewrite IH]. Qed.

(** The character test of the loop is membership in the allowed charset. *)
Lemma path_char_ok_spec (ch : ascii) :
  path_char_ok ch = existsb (Ascii.eqb ch) allowed_chars.
Proof. destruct ch as [[] [] [] [] [] [] [] []]; reflexivity. Qed.

Lemma forallb_false_iff {A} (f : A -> bool) (l : list A) :
  forallb f l = false <-> exists x, In x l /\ f x = false.
Proof.
  induction l as [|x l IH]; simpl.
  - split; [discriminate|]. intros [y [[] _]].
  - rewrite andb_false_iff, IH. split.
    + intros [H|[y [Hy Hf]]]; [exists x; auto|exists y; auto].
    + intros [y [[<-|Hy] Hf]]; [left; exact Hf|right; exists y; auto].
Qed.

Lemma validate_path_encodes (s : string) (pb : bytes) :
  _validate_path s = Some pb -> pb = encode_ascii s.
Proof.
  unfold _validate_path. destruct s as [|c tl]; [discriminate|].
  destruct (negb (Ascii.eqb c "/"%char)); [discriminate|].
  destruct (negb (chars_ok (String c tl))); [discriminate|].
  destruct (negb (seg_loop tl [])); [discriminate|]. congruence.
Qed.

Lemma ord_dot (ch : ascii) : ord ch = 46 -> ch = "."%char.
Proof.
  unfold ord. intros H. rewrite <- (ascii_nat_embedding ch).
  replace (nat_of_ascii ch) with 46%nat by lia. reflexivity.
Qed.

(** After [replace('.', '*')] the encoded path holds no [.] byte. *)
Lemma replace_dot_no_dot (s : string) : ~ In 46 (encode_ascii (replace_dot s)).
Proof.
  induction s as [|c s IH]; simpl; [tauto|].
  intros [H|H]; [|exact (IH H)].
  destruct (Ascii.eqb c "."%char) eqn:E; [discriminate|].
  apply ord_dot in H. subst c. discriminate.
Qed.

(** ** Theorems *)

(** C1: for every command byte [cmd] and every payload of 0..255 bytes,
    [_parse_response (_build_frame cmd payload)] succeeds and returns
    exactly [{'cmd': cmd, 'data': payload}]. *)
Theorem parse_build_roundtrip (cmd : Z) (payload : bytes) :
  is_byte cmd -> Forall is_byte payload -> (length payload <= 255)%nat ->
  _parse_response (_build_frame cmd payload) = Some (mkParsed cmd payload).
Proof. apply build_frame_parses. Qed.


(** C2: [_parse_response raw] fails exactly when [raw] has fewer than 4
    bytes, or its first byte is not [0xAA], or [len(raw)] differs from
    [3 + declared_length + 1], or the low 8 bits of the sum of all bytes but
    the last differ from the last byte; otherwise it returns the command
    byte [raw[1]] and the data slice [raw[3:3+n]].  It is a pure function:
    it reads no driver state and changes none. *)
Theorem parse_response_spec (raw : bytes) :
  (_parse_response raw = None <->
     (length raw < 4)%nat \/ nth 0 raw 0 <> 0xAA \/
     Z.of_nat (length raw) <> 3 + nth 2 raw 0 + 1 \/
     Z.land (byte_sum (removelast raw)) 255 <> last raw 0) /\
  (forall p, _parse_response raw = Some p ->
     p = mkParsed (nth 1 raw 0) (firstn (Z.to_nat (nth 2 raw 0)) (skipn 3 raw))).
Proof.
  rewrite land255, <- checksum_sum.
  destruct (_parse_response raw) as [p|] eqn:E.
  - split.
    + split; [discriminate|].
      intros [H|[H|[H|H]]]; exfalso; unfold _parse_response in E;
        [ rewrite (proj2 (Nat.ltb_lt _ _) H) in E; discriminate
        | rewrite (proj2 (Z.eqb_neq _ _) H) in E;
          destruct (length raw <? 4)%nat; discriminate
        | replace (Z.of_nat (length raw) =? 4 + nth 2 raw 0 - 0) with false in E
            by (symmetry; apply Z.eqb_neq; lia);
          destruct (length raw <? 4)%nat, (nth 0 raw 0 =? 0xAA); discriminate
        | rewrite removelast_firstn_len, <- Nat.sub_1_r in H;
          rewrite (proj2 (Z.eqb_neq _ _) H) in E;
          destruct (length raw <? 4)%nat, (nth 0 raw 0 =? 0xAA),
            (Z.of_nat (length raw) =? 4 + nth 2 raw 0 - 0); discriminate ].
    + intros p' Hp'. injection Hp' as <-.
      assert (H := E). unfold _parse_response in H.
      destruct (length raw <? 4)%nat eqn:E1; [discriminate|].
      apply Nat.ltb_ge in E1.
      destruct (nth 0 raw 0 =? 0xAA) eqn:E2; [|discriminate]. apply Z.eqb_eq in E2.
      destruct (Z.of_nat (length raw) =? 4 + nth 2 raw 0 - 0) eqn:E3;
        [|discriminate]. apply Z.eqb_eq in E3.
      destruct (checksum (firstn (length raw - 1) raw) =? last raw 0) eqn:E4;
        [|discriminate]. apply Z.eqb_eq in E4.
      rewrite parse_response_success in E; [congruence|lia|exact E2|lia|].
      rewrite removelast_firstn_len, <- Nat.sub_1_r. exact E4.
  - split; [|discriminate]. split; [|reflexivity]. intros _.
    apply parse_response_failure in E. lia.
Qed.

(** C8: [play()] writes exactly the bytes [AA 02 00 AC] (checksum
    [(0xAA + 0x02 + 0x00) & 0xFF = 0xAC]) and afterwards the cached
    [play_state] is [PLAY_PLAY]. *)
Theorem play_writes_frame (d : Driver) :
  play d = (Ok tt, set_play_state PLAY_PLAY
                     (set_uart_tx (uart_tx d ++ [0xAA; 0x02; 0x00; 0xAC]) d)) /\
  (0xAA + 0x02 + 0x00) mod 256 = 0xAC.
Proof. split; reflexivity. Qed.

(** C3 (amended): when the stream brings, after bytes without a start
    sentinel, a corrupted frame that still spans its declared length
    (it starts with [0xAA] and is [4 + declared_length] bytes long, but
    fails [_parse_response]) immediately followed by a valid frame with the
    expected command, [_recv_response] returns the valid frame and never
    the corrupted one. *)
Theorem recv_skips_corrupted_frame (e : Z) (payload : bytes)
    (junk : list (option Z)) (corrupt : bytes) (rest : list (option Z)) :
  is_byte e -> Forall is_byte payload -> (length payload <= 255)%nat ->
  Forall (fun r => r <> Some 0xAA) junk ->
  nth 0 corrupt 0 = 0xAA -> (4 <= length corrupt)%nat ->
  Z.of_nat (length corrupt) = 4 + nth 2 corrupt 0 ->
  _parse_response corrupt = None ->
  _recv_response (Some e)
    (junk ++ map Some corrupt ++ map Some (_build_frame e payload) ++ rest)
  = Some (_build_frame e payload).
Proof.
  intros He Hp Hl Hj H0 H4 Hlen Hc. unfold _recv_response.
  rewrite skip_junk by exact Hj.
  rewrite seek_frame by assumption. unfold frame_done. rewrite Hc.
  destruct (build_frame_shape e payload Hl) as [F0 [F4 Flen]].
  rewrite seek_frame by assumption. unfold frame_done.
  rewrite build_frame_parses by assumption. cbn [p_cmd]. now rewrite Z.eqb_refl.
Qed.

(** C3 (counterexample): a false-positive start sentinel [AA] just before
    the valid frame [AA 01 01 01 AD] makes the receiver take that frame's
    bytes as the rest of a frame; after the checksum failure it seeks a new
    sentinel after them, so the valid frame is never delivered, however
    many further idle reads the deadline window allows. *)
Lemma recv_false_sentinel_loses_frame :
  _parse_response [0xAA] = None /\
  _build_frame 0x01 [0x01] = [0xAA; 0x01; 0x01; 0x01; 0xAD] /\
  _parse_response (_build_frame 0x01 [0x01]) = Some (mkParsed 0x01 [0x01]) /\
  _recv_response (Some 0x01)
    (map Some ([0xAA] ++ _build_frame 0x01 [0x01]) ++ repeat None 1000) = None.
Proof. repeat split; vm_compute; reflexivity. Qed.

(** C4: for every count in 1..65535, when the cached [play_mode] is
    single-stop (2), full-random (3), directory-random (5),
    directory-sequential (6) or full-sequential (7), [set_loop_count count]
    raises [ValueError], and the [0x19] frame [AA 19 02 H L SM] has been
    written to the UART before. *)
Theorem set_loop_count_writes_then_rejects (count : Z) (d : Driver) :
  1 <= count <= 65535 -> In (play_mode d) [0x02; 0x03; 0x05; 0x06; 0x07] ->
  set_loop_count count d =
    (Err ValueError,
     set_uart_tx (uart_tx d ++ _build_frame 0x19
                    [Z.land (Z.shiftr count 8) 0xFF; Z.land count 0xFF]) d).
Proof.
  intros Hc Hm. unfold set_loop_count, _u16, bind, gets, uart_write, modify.
  replace (negb ((0 <=? count) && (count <=? 0xFFFF))) with false
    by (symmetry; apply negb_false_iff, andb_true_iff; split; apply Z.leb_le; lia).
  unfold ret. cbn [play_mode set_uart_tx].
  replace (existsb (Z.eqb (play_mode d)) [0x02; 0x03; 0x05; 0x06; 0x07]) with true.
  - reflexivity.
  - symmetry. apply existsb_exists. exists (play_mode d). split; [exact Hm|apply Z.eqb_refl].
Qed.

Lemma set_loop_count_writes_then_rejects_witness :
  (1 <= 1 <= 65535 /\ In (play_mode default_driver) [0x02; 0x03; 0x05; 0x06; 0x07]) /\
  set_loop_count 1 default_driver =
    (Err ValueError, set_uart_tx ([] ++ [0xAA; 0x19; 0x02; 0x00; 0x01; 0xC6]) default_driver).
Proof.
  split; [split; [lia | simpl; tauto]|].
  apply (set_loop_count_writes_then_rejects 1 default_driver); [lia | simpl; tauto].
Defined.

(** C5 (amended): [_validate_path] accepts ['/MUSIC/01.MP3'] and rejects
    ['/ABCDEFGHI/01.MP3'], whose folder name has 9 characters; for every
    string [s] it fails exactly when [s] is empty, or its first character
    is not ['/'], or a character lies outside the allowed charset ['/', '*',
    '.', '_', 0-9, A-Z], or a directory segment has a length outside 1..8,
    where the directory segments are the pieces of text closed by a ['/']
    after the leading ['/'] and before the first ['*'] or ['.']; the last
    component (the file name) is not length-checked. *)
Theorem validate_path_spec :
  _validate_path "/MUSIC/01.MP3" = Some (encode_ascii "/MUSIC/01.MP3") /\
  _validate_path "/ABCDEFGHI/01.MP3" = None /\
  forall s : string,
    _validate_path s = None <->
    s = EmptyString \/
    (match s with String c _ => c <> "/"%char | EmptyString => False end) \/
    (exists ch, In ch (list_ascii_of_string s) /\ ~ In ch allowed_chars) \/
    (exists seg, In seg (dir_segments s) /\ ~ (1 <= length seg <= 8)%nat).
Proof.
  split; [reflexivity|]. split; [reflexivity|].
  intros s. unfold _validate_path, dir_segments.
  destruct s as [|c tl]; [split; [left; reflexivity|reflexivity]|].
  cbn [list_ascii_of_string].
  destruct (Ascii.eqb c "/"%char) eqn:E1; cbn [negb].
  2: { apply Ascii.eqb_neq in E1. split; [intros _; right; left; exact E1|reflexivity]. }
  apply Ascii.eqb_eq in E1. subst c.
  rewrite chars_ok_spec, seg_loop_spec. cbn [list_ascii_of_string prepend].
  assert (Hsplit : forall ps : list (list ascii), ps <> [] ->
            removelast (prepend [] ps) = removelast ps)
    by (intros [|p ps] Hps; [congruence|reflexivity]).
  rewrite Hsplit by apply split_slash_nonempty.
  assert (Hch : forallb path_char_ok ("/"%char :: list_ascii_of_string tl) = false <->
                exists ch, In ch ("/"%char :: list_ascii_of_string tl) /\ ~ In ch allowed_chars).
  { rewrite forallb_false_iff. split; intros [ch [Hin Hf]]; exists ch; split; auto.
    - rewrite path_char_ok_spec in Hf. intros Hin'.
      assert (existsb (Ascii.eqb ch) allowed_chars = true)
        by (apply existsb_exists; exists ch; split; [exact Hin'|apply Ascii.eqb_refl]).
      congruence.
    - rewrite path_char_ok_spec. apply not_true_is_false. intros Ht.
      apply existsb_exists in Ht. destruct Ht as [ch' [Hin' Heq]].
      apply Ascii.eqb_eq in Heq. subst ch'. contradiction. }
  assert (Hseg : forall ps, forallb seg_ok ps = false <->
                 exists seg, In seg ps /\ ~ (1 <= length seg <= 8)%nat).
  { intros ps. rewrite forallb_false_iff. split; intros [seg [Hin Hf]]; exists seg;
      split; auto; unfold seg_ok in *.
    - rewrite andb_false_iff, !Nat.leb_gt in Hf. lia.
    - rewrite andb_false_iff, !Nat.leb_gt. lia. }
  destruct (forallb path_char_ok ("/"%char :: list_ascii_of_string tl)) eqn:E2; cbn [negb].
  2: { split; [intros _; right; right; left; now apply Hch|reflexivity]. }
  destruct (forallb seg_ok (removelast (split_slash (upto_fmt (list_ascii_of_string tl)))))
    eqn:E3; cbn [negb].
  - split; [discriminate|].
    intros [H|[H|[H|H]]]; [discriminate|contradiction| |].
    + apply Hch in H. congruence.
    + apply Hseg in H. congruence.
  - split; [intros _; right; right; right; now apply Hseg|reflexivity].
Qed.

(** C5 (counterexample): paths with a segment longer than 8 characters
    that [_validate_path] accepts: a final component ['ABCDEFGHIJ'], and a
    file name ['ABCDEFGHIJ'] before the extension. *)
Lemma validate_path_long_segment_accepted :
  existsb (fun seg => (8 <? length seg)%nat) (all_segments "/ABCDEFGHIJ") = true /\
  _validate_path "/ABCDEFGHIJ" = Some (encode_ascii "/ABCDEFGHIJ") /\
  existsb (fun seg => (8 <? length seg)%nat) (all_segments "/MUSIC/ABCDEFGHIJ.MP3") = true /\
  _validate_path "/MUSIC/ABCDEFGHIJ.MP3" = Some (encode_ascii "/MUSIC/ABCDEFGHIJ.MP3").
Proof. repeat split; vm_compute; reflexivity. Qed.

(** C6: for every query method, when no valid frame with the expected
    command code arrives before the timeout ([_recv_response] gives
    [None]), the method returns [None] without raising; the only effect is
    the request frame written to the UART, and every cached attribute
    ([play_state], [current_disk], [volume], [play_mode], [eq],
    [dac_channel]) keeps its value. *)
Theorem query_timeout_keeps_cache (q : Query) (reads : list (option Z)) (d : Driver) :
  _recv_response (Some (query_cmd q)) reads = None ->
  run_query q reads d = (Ok None, set_uart_tx (uart_tx d ++ _build_frame (query_cmd q) []) d) /\
  cache (snd (run_query q reads d)) = cache d.
Proof.
  intros H.
  assert (Hq : run_query q reads d =
               (Ok None, set_uart_tx (uart_tx d ++ _build_frame (query_cmd q) []) d)).
  { destruct q; cbn [run_query query_cmd];
      unfold query_status, query_online_disks, query_current_disk,
        query_total_tracks, query_current_track, query_folder_first_track,
        query_folder_total_tracks, query_u16, query_short_filename,
        query_current_track_time, query_with;
      cbn [query_cmd] in H; rewrite H; reflexivity. }
  split; [exact Hq|]. rewrite Hq. reflexivity.
Qed.

Lemma query_timeout_keeps_cache_witness :
  _recv_response (Some (query_cmd QueryStatus)) [None; Some 0x55; None] = None /\
  run_query QueryStatus [None; Some 0x55; None] default_driver =
    (Ok None, set_uart_tx ([] ++ [0xAA; 0x01; 0x00; 0xAB]) default_driver) /\
  cache (snd (run_query QueryStatus [None; Some 0x55; None] default_driver)) =
    cache default_driver.
Proof.
  assert (H : _recv_response (Some (query_cmd QueryStatus)) [None; Some 0x55; None] = None)
    by reflexivity.
  split; [exact H|]. exact (query_timeout_keeps_cache QueryStatus _ default_driver H).
Defined.

(** C7 (code at the failing input [count = 0]): [set_loop_count 0] passes
    the [_u16] check (0..65535) and writes [AA 19 02 00 00 C5] to the UART
    in every driver state; it raises no error at all unless the cached mode
    is one without loop-count support, and then only after the write. *)
Theorem set_loop_count_zero_written (d : Driver) :
  set_loop_count 0 d =
    (if existsb (Z.eqb (play_mode d)) [0x02; 0x03; 0x05; 0x06; 0x07]
     then Err ValueError else Ok tt,
     set_uart_tx (uart_tx d ++ [0xAA; 0x19; 0x02; 0x00; 0x00; 0xC5]) d).
Proof.
  unfold set_loop_count, _u16, bind, gets, uart_write, modify, ret, raise.
  cbn [negb andb Z.leb Z.compare]. cbn [play_mode set_uart_tx].
  destruct (existsb (Z.eqb (play_mode d)) [0x02; 0x03; 0x05; 0x06; 0x07]); reflexivity.
Qed.

(** C9: [play_disk_path] and [insert_path] replace every ['.'] of the path
    by ['*'] before validating and encoding it: a call either raises before
    writing anything, or writes the frame whose DATA is the disk byte
    followed by the bytes of the replaced path, and these DATA bytes contain
    no ['.'] (46); for ['/MUSIC/01.MP3'] the path bytes written are those of
    ['/MUSIC/01*MP3']. *)
Theorem path_commands_replace_dot (disk : Z) (path : string) (d : Driver) :
  (match play_disk_path disk path d with
   | (Ok _, d') =>
       uart_tx d' = uart_tx d ++ _build_frame 0x08 ([disk] ++ encode_ascii (replace_dot path)) /\
       ~ In 46 ([disk] ++ encode_ascii (replace_dot path))
   | (Err _, d') => d' = d
   end) /\
  (match insert_path disk path d with
   | (Ok _, d') =>
       uart_tx d' = uart_tx d ++ _build_frame 0x17 ([disk] ++ encode_ascii (replace_dot path)) /\
       ~ In 46 ([disk] ++ encode_ascii (replace_dot path))
   | (Err _, d') => d' = d
   end) /\
  encode_ascii (replace_dot "/MUSIC/01.MP3") = encode_ascii "/MUSIC/01*MP3".
Proof.
  assert (Hnd : forall dk, existsb (Z.eqb dk) [DISK_USB; DISK_SD; DISK_FLASH] = true ->
            ~ In 46 ([dk] ++ encode_ascii (replace_dot path))).
  { intros dk Hdk [H|H]; [|exact (replace_dot_no_dot path H)].
    subst dk. discriminate. }
  unfold play_disk_path, insert_path, _validate_disk, validate_path_m, bind, ret, raise,
    uart_write, modify.
  destruct (existsb (Z.eqb disk) [DISK_USB; DISK_SD; DISK_FLASH]) eqn:Ed;
    [|repeat split; reflexivity].
  destruct (_validate_path (replace_dot path)) as [pb|] eqn:Ev;
    [|repeat split; reflexivity].
  apply validate_path_encodes in Ev. subst pb.
  repeat split; try reflexivity; apply Hnd; exact Ed.
Qed.

(** C10: when [query_status] receives a valid response frame whose DATA is
    the single byte [b], it stores [b] in [play_state] and returns it, for
    every byte 0..255, without checking that [b] is one of [PLAY_STOP],
    [PLAY_PLAY], [PLAY_PAUSE]. *)
Theorem query_status_stores_raw_byte (b : Z) (rest : list (option Z)) (d : Driver) :
  is_byte b ->
  query_status (map Some (_build_frame 0x01 [b]) ++ rest) d =
    (Ok (Some (QInt b)),
     set_play_state b (set_uart_tx (uart_tx d ++ _build_frame 0x01 []) d)).
Proof.
  intros Hb.
  assert (Hp : _parse_response (_build_frame 0x01 [b]) = Some (mkParsed 0x01 [b]))
    by (apply build_frame_parses; [unfold is_byte; lia|constructor; [exact Hb|constructor]|simpl; lia]).
  destruct (build_frame_shape 0x01 [b]) as [F0 [F4 Flen]]; [simpl; lia|].
  assert (Hr : _recv_response (Some 0x01) (map Some (_build_frame 0x01 [b]) ++ rest)
               = Some (_build_frame 0x01 [b])).
  { unfold _recv_response. rewrite seek_frame by assumption.
    unfold frame_done. rewrite Hp. reflexivity. }
  unfold query_status, query_with, bind, _send_frame, uart_write, modify.
  rewrite Hr. unfold parse_m.
  remember (_build_frame 0x01 [b]) as fr eqn:F.
  destruct fr as [|x fr']; [discriminate|].
  rewrite Hp. reflexivity.
Qed.

Lemma query_status_stores_raw_byte_witness :
  ~ In 0x7F [PLAY_STOP; PLAY_PLAY; PLAY_PAUSE] /\
  query_status (map Some (_build_frame 0x01 [0x7F])) default_driver =
    (Ok (Some (QInt 0x7F)),
     set_play_state 0x7F (set_uart_tx ([] ++ _build_frame 0x01 []) default_driver)).
Proof.
  split; [unfold PLAY_STOP, PLAY_PLAY, PLAY_PAUSE; simpl; lia|].
  rewrite <- (app_nil_r (map Some (_build_frame 0x01 [0x7F]))).
  apply (query_status_stores_raw_byte 0x7F [] default_driver). unfold is_byte. lia.
Defined.

Lemma parse_build_roundtrip_witness :
  (is_byte 0x24 /\ Forall is_byte [0x00; 0x03; 0x3B] /\ (length [0x00; 0x03; 0x3B] <= 255)%nat) /\
  _parse_response (_build_frame 0x24 [0x00; 0x03; 0x3B]) = Some (mkParsed 0x24 [0x00; 0x03; 0x3B]).
Proof.
  assert (H : is_byte 0x24 /\ Forall is_byte [0x00; 0x03; 0x3B] /\
              (length [0x00; 0x03; 0x3B] <= 255)%nat)
    by (unfold is_byte; repeat constructor; simpl; lia).
  split; [exact H|].
  destruct H as [H1 [H2 H3]]. exact (parse_build_roundtrip 0x24 _ H1 H2 H3).
Defined.

Lemma recv_skips_corrupted_frame_witness :
  _recv_response (Some 0x01)
    ([None; Some 0x10] ++ map Some [0xAA; 0x01; 0x01; 0x05; 0x00] ++
     map Some (_build_frame 0x01 [0x01]) ++ [])
  = Some (_build_frame 0x01 [0x01]).
Proof.
  apply (recv_skips_corrupted_frame 0x01 [0x01] [None; Some 0x10]
           [0xAA; 0x01; 0x01; 0x05; 0x00] []);
    try (unfold is_byte; repeat constructor; simpl; lia);
    try reflexivity; try (repeat constructor; discriminate).
Defined.

(** ** Further properties *)

(** Every frame the receiver returns passes [_parse_response] and carries
    the expected command. *)
Lemma recv_loop_sound (eo : option Z) (reads : list (option Z)) (s : RxState) (r : bytes) :
  recv_loop eo reads s = Some r ->
  exists p, _parse_response r = Some p /\ (forall c, eo = Some c -> p_cmd p = c).
Proof.
  revert s. induction reads as [|[x|] rest IH]; intros s H; simpl in H;
    [discriminate| |exact (IH s H)].
  destruct (rx_state s =? 0); [destruct (x =? 0xAA); eapply IH; exact H|].
  destruct (rx_state s =? 1); [|eapply IH; exact H].
  match type of H with context [if ?b then _ else _] =>
    destruct b; [|eapply IH; exact H] end.
  destruct (_parse_response (rx_buf s ++ [x])) as [p|] eqn:Ep; [|eapply IH; exact H].
  destruct eo as [e|].
  - destruct (p_cmd p =? e) eqn:Ec; [|eapply IH; exact H].
    injection H as <-. exists p. split; [exact Ep|]. intros c [= <-]. now apply Z.eqb_eq.
  - injection H as <-. exists p. split; [exact Ep|discriminate].
Qed.

(** A query answered by a well-formed frame with its own command code
    continues with that frame's DATA. *)
Lemma query_with_reply (cmd : Z) (payload : bytes) (rest : list (option Z))
    (k : bytes -> M (option QResult)) (d : Driver) :
  is_byte cmd -> Forall is_byte payload -> (length payload <= 255)%nat ->
  query_with cmd (map Some (_build_frame cmd payload) ++ rest) k d =
  k payload (set_uart_tx (uart_tx d ++ _build_frame cmd []) d).
Proof.
  intros Hc Hp Hl.
  pose proof (build_frame_parses cmd payload Hc Hp Hl) as Hparse.
  destruct (build_frame_shape cmd payload Hl) as [F0 [F4 Flen]].
  assert (Hr : _recv_response (Some cmd) (map Some (_build_frame cmd payload) ++ rest)
               = Some (_build_frame cmd payload)).
  { unfold _recv_response. rewrite seek_frame by assumption.
    unfold frame_done. rewrite Hparse. cbn [p_cmd]. now rewrite Z.eqb_refl. }
  unfold query_with, bind, _send_frame, uart_write, modify.
  rewrite Hr. unfold parse_m.
  remember (_build_frame cmd payload) as fr eqn:F.
  destruct fr as [|x fr']; [simpl in F4; lia|].
  rewrite Hparse. reflexivity.
Qed.

Lemma existsb_Zeqb (x : Z) (l : list Z) : existsb (Z.eqb x) l = true <-> In x l.
Proof.
  rewrite existsb_exists. split.
  - intros [y [Hy He]]. apply Z.eqb_eq in He. now subst.
  - intros H. exists x. split; [exact H|apply Z.eqb_refl].
Qed.

Lemma existsb_Zeqb_false (x : Z) (l : list Z) : existsb (Z.eqb x) l = false <-> ~ In x l.
Proof.
  rewrite <- existsb_Zeqb. destruct (existsb (Z.eqb x) l); split; congruence.
Qed.

Lemma range_b (lo hi v : Z) : (lo <=? v) && (v <=? hi) = true <-> lo <= v <= hi.
Proof. rewrite andb_true_iff, !Z.leb_le. tauto. Qed.

Lemma range_b_false (lo hi v : Z) : (lo <=? v) && (v <=? hi) = false <-> ~ (lo <= v <= hi).
Proof. rewrite <- range_b. destruct ((lo <=? v) && (v <=? hi)); split; congruence. Qed.

Lemma u16_in_range (v : Z) (d : Driver) :
  0 <= v <= 65535 -> _u16 v d = (Ok (v / 256, v mod 256), d).
Proof.
  intros Hv. unfold _u16.
  replace ((0 <=? v) && (v <=? 0xFFFF)) with true by (symmetry; apply range_b; lia).
  cbn [negb]. unfold ret. f_equal. f_equal. f_equal.
  - rewrite land255, Z.shiftr_div_pow2 by lia. change (2 ^ 8) with 256.
    apply Z.mod_small. split; [apply Z.div_pos; lia|apply Z.div_lt_upper_bound; lia].
  - apply land255.
Qed.

Lemma u16_out_of_range (v : Z) (d : Driver) :
  ~ (0 <= v <= 65535) -> _u16 v d = (Err ValueError, d).
Proof.
  intros Hv. unfold _u16.
  replace ((0 <=? v) && (v <=? 0xFFFF)) with false by (symmetry; apply range_b_false; lia).
  reflexivity.
Qed.

Lemma be16_split (H L : Z) : 0 <= L < 256 -> be16 [H; L] = H * 256 + L.
Proof.
  intros HL. unfold be16. cbn [nth].
  rewrite Z.shiftl_mul_pow2 by lia. change (2 ^ 8) with 256.
  rewrite <- Z.lxor_lor.
  - symmetry. apply Z.add_nocarry_lxor.
    apply Z.bits_inj'. intros i Hi. rewrite Z.land_spec, Z.bits_0.
    destruct (Z.lt_ge_cases i 8) as [Hi8|Hi8].
    + change 256 with (2 ^ 8). rewrite Z.mul_pow2_bits_low by lia. reflexivity.
    + rewrite <- (Z.mod_small L 256) by lia. change 256 with (2 ^ 8) at 2.
      rewrite Z.mod_pow2_bits_high by lia. apply andb_false_r.
  - apply Z.bits_inj'. intros i Hi. rewrite Z.land_spec, Z.bits_0.
    destruct (Z.lt_ge_cases i 8) as [Hi8|Hi8].
    + change 256 with (2 ^ 8). rewrite Z.mul_pow2_bits_low by lia. reflexivity.
    + rewrite <- (Z.mod_small L 256) by lia. change 256 with (2 ^ 8) at 2.
      rewrite Z.mod_pow2_bits_high by lia. apply andb_false_r.
Qed.

(** [__init__] succeeds exactly when the UART object has [read]/[write],
    the volume is in 0..30, the disk is a [DISK_*] constant (including
    [DISK_NONE]), the mode a [MODE_*] constant, the channel a [CH_*]
    constant and the timeout positive; the new driver has written nothing,
    is stopped with EQ normal and caches the given defaults. *)
Theorem init_spec (uart_ok : bool) (v dk m ch t : Z) :
  match __init__ uart_ok v dk m ch t with
  | Ok d =>
      (uart_ok = true /\ 0 <= v <= 30 /\ In dk [0x00; 0x01; 0x02; 0xFF] /\
       In m MODES /\ In ch CHANNELS /\ 0 < t) /\
      d = mkDriver [] t PLAY_STOP dk v m EQ_NORMAL ch
  | Err e =>
      e = ValueError /\
      ~ (uart_ok = true /\ 0 <= v <= 30 /\ In dk [0x00; 0x01; 0x02; 0xFF] /\
         In m MODES /\ In ch CHANNELS /\ 0 < t)
  end.
Proof.
  unfold __init__, VOLUME_MIN, VOLUME_MAX, DISK_USB, DISK_SD, DISK_FLASH, DISK_NONE.
  destruct uart_ok; cbn [negb]; [|split; [reflexivity|intros [H _]; discriminate]].
  destruct ((0 <=? v) && (v <=? 30)) eqn:E1; cbn [negb].
  2: { apply range_b_false in E1. split; [reflexivity|tauto]. }
  apply range_b in E1.
  destruct (existsb (Z.eqb dk) [0; 1; 2; 255]) eqn:E2; cbn [negb].
  2: { apply existsb_Zeqb_false in E2. split; [reflexivity|tauto]. }
  apply existsb_Zeqb in E2.
  destruct (existsb (Z.eqb m) MODES) eqn:E3; cbn [negb].
  2: { apply existsb_Zeqb_false in E3. split; [reflexivity|tauto]. }
  apply existsb_Zeqb in E3.
  destruct (existsb (Z.eqb ch) CHANNELS) eqn:E4; cbn [negb].
  2: { apply existsb_Zeqb_false in E4. split; [reflexivity|tauto]. }
  apply existsb_Zeqb in E4.
  destruct (t <=? 0) eqn:E5.
  - apply Z.leb_le in E5. split; [reflexivity|lia].
  - apply Z.leb_gt in E5. split; [tauto|reflexivity].
Qed.

(** [_u16] splits every value of 0..65535 into a high and a low byte that the
    query decoder [(d[0] << 8) | d[1]] joins back into the value; any other
    value raises [ValueError] and leaves the driver as it was. *)
Theorem u16_roundtrip (v : Z) (d : Driver) :
  (0 <= v <= 65535 /\
   exists H L, _u16 v d = (Ok (H, L), d) /\ is_byte H /\ is_byte L /\ be16 [H; L] = v) \/
  (~ (0 <= v <= 65535) /\ _u16 v d = (Err ValueError, d)).
Proof.
  destruct (Z.le_gt_cases 0 v) as [H0|H0]; [destruct (Z.le_gt_cases v 65535) as [H1|H1]|].
  - left. split; [lia|]. exists (v / 256), (v mod 256).
    rewrite u16_in_range by lia. unfold is_byte.
    assert (0 <= v mod 256 < 256) by (apply Z.mod_pos_bound; lia).
    split; [reflexivity|]. split; [split; [apply Z.div_pos; lia|assert (v / 256 < 256) by (apply Z.div_lt_upper_bound; lia); lia]|].
    split; [lia|]. rewrite be16_split by lia. rewrite Z.mul_comm. symmetry. apply Z.div_mod. lia.
  - right. split; [lia|]. apply u16_out_of_range. lia.
  - right. split; [lia|]. apply u16_out_of_range. lia.
Qed.

(** The commands taking a 16-bit argument write its big-endian bytes
    [H = v / 256], [L = v mod 256]: [select_track] as [0x07] (and marks the
    driver playing) or, with [play = False], as the preselect [0x1F];
    [seek_back] as [0x22]; [seek_forward] as [0x23]; [insert_track] as
    [0x16] after the disk byte. *)
Theorem u16_commands_frames (v : Z) (d : Driver) :
  0 <= v <= 65535 ->
  select_track v true d =
    (Ok tt, set_play_state PLAY_PLAY
              (set_uart_tx (uart_tx d ++ _build_frame 0x07 [v / 256; v mod 256]) d)) /\
  select_track v false d =
    (Ok tt, set_uart_tx (uart_tx d ++ _build_frame 0x1F [v / 256; v mod 256]) d) /\
  seek_back v d =
    (Ok tt, set_uart_tx (uart_tx d ++ _build_frame 0x22 [v / 256; v mod 256]) d) /\
  seek_forward v d =
    (Ok tt, set_uart_tx (uart_tx d ++ _build_frame 0x23 [v / 256; v mod 256]) d) /\
  (forall disk, In disk [DISK_USB; DISK_SD; DISK_FLASH] ->
   insert_track disk v d =
    (Ok tt, set_uart_tx (uart_tx d ++ _build_frame 0x16 [disk; v / 256; v mod 256]) d)).
Proof.
  intros Hv.
  unfold select_track, seek_back, seek_forward, insert_track, _validate_disk, bind.
  rewrite !u16_in_range by exact Hv.
  repeat split; try reflexivity.
  intros disk Hd. apply existsb_Zeqb in Hd. rewrite Hd. unfold ret.
  rewrite u16_in_range by exact Hv. reflexivity.
Qed.

Lemma u16_commands_frames_witness :
  0 <= 300 <= 65535 /\
  seek_forward 300 default_driver =
    (Ok tt, set_uart_tx ([] ++ [0xAA; 0x23; 0x02; 0x01; 0x2C; 0xFC]) default_driver).
Proof.
  split; [lia|]. apply (u16_commands_frames 300 default_driver). lia.
Defined.

(** A 16-bit argument outside 0..65535 makes [select_track], [seek_back],
    [seek_forward], [insert_track] and [set_loop_count] raise [ValueError]
    before anything is written or cached. *)
Theorem u16_commands_reject (v : Z) (d : Driver) :
  ~ (0 <= v <= 65535) ->
  (forall p, select_track v p d = (Err ValueError, d)) /\
  seek_back v d = (Err ValueError, d) /\
  seek_forward v d = (Err ValueError, d) /\
  (forall disk, fst (insert_track disk v d) = Err ValueError /\ snd (insert_track disk v d) = d) /\
  set_loop_count v d = (Err ValueError, d).
Proof.
  intros Hv.
  unfold select_track, seek_back, seek_forward, insert_track, set_loop_count, bind.
  rewrite !u16_out_of_range by exact Hv.
  split; [intros p; reflexivity|]. split; [reflexivity|]. split; [reflexivity|].
  split; [|reflexivity].
  intros disk. unfold _validate_disk, ret, raise.
  destruct (existsb (Z.eqb disk) [DISK_USB; DISK_SD; DISK_FLASH]);
    [rewrite u16_out_of_range by exact Hv|]; split; reflexivity.
Qed.

Lemma u16_commands_reject_witness :
  ~ (0 <= 70000 <= 65535) /\ seek_back 70000 default_driver = (Err ValueError, default_driver).
Proof.
  assert (H : ~ (0 <= 70000 <= 65535)) by lia.
  split; [exact H|]. apply (u16_commands_reject 70000 default_driver H).
Defined.

(** [set_volume vol] with [vol] in 0..30 writes [AA 13 01 vol SM] and caches
    the volume; any other value raises [ValueError] and changes nothing. *)
Theorem set_volume_spec (vol : Z) (d : Driver) :
  (0 <= vol <= 30 /\
   set_volume vol d =
     (Ok tt, set_volume_attr vol (set_uart_tx (uart_tx d ++ _build_frame 0x13 [vol]) d))) \/
  (~ (0 <= vol <= 30) /\ set_volume vol d = (Err ValueError, d)).
Proof.
  unfold set_volume, VOLUME_MIN, VOLUME_MAX.
  destruct ((0 <=? vol) && (vol <=? 30)) eqn:E.
  - left. apply range_b in E. split; [exact E|reflexivity].
  - right. apply range_b_false in E. split; [exact E|reflexivity].
Qed.

(** The enumerated settings: [set_eq] accepts [EQ_*] (0..4), [set_dac_channel]
    [CH_*] (0..2) and [set_play_mode] [MODE_*] (0..7); an accepted value is
    written in its frame ([0x1A], [0x1D], [0x18]) and then cached, any other
    value raises [ValueError] and changes nothing. *)
Theorem enum_setters_spec (v : Z) (d : Driver) :
  ((In v [0; 1; 2; 3; 4] /\
    set_eq v d = (Ok tt, set_eq_attr v (set_uart_tx (uart_tx d ++ _build_frame 0x1A [v]) d))) \/
   (~ In v [0; 1; 2; 3; 4] /\ set_eq v d = (Err ValueError, d))) /\
  ((In v [0; 1; 2] /\
    set_dac_channel v d =
      (Ok tt, set_dac_channel_attr v (set_uart_tx (uart_tx d ++ _build_frame 0x1D [v]) d))) \/
   (~ In v [0; 1; 2] /\ set_dac_channel v d = (Err ValueError, d))) /\
  ((0 <= v <= 7 /\
    set_play_mode v d =
      (Ok tt, set_play_mode_attr v (set_uart_tx (uart_tx d ++ _build_frame 0x18 [v]) d))) \/
   (~ (0 <= v <= 7) /\ set_play_mode v d = (Err ValueError, d))).
Proof.
  unfold set_eq, set_dac_channel, set_play_mode, _validate_eq, _validate_channel,
    _validate_mode, bind.
  assert (Hm : In v MODES <-> 0 <= v <= 7) by (unfold MODES; simpl; lia).
  split; [|split].
  - destruct (existsb (Z.eqb v) EQS) eqn:E.
    + apply existsb_Zeqb in E. left. split; [exact E|reflexivity].
    + apply existsb_Zeqb_false in E. right. split; [exact E|reflexivity].
  - destruct (existsb (Z.eqb v) CHANNELS) eqn:E.
    + apply existsb_Zeqb in E. left. split; [exact E|reflexivity].
    + apply existsb_Zeqb_false in E. right. split; [exact E|reflexivity].
  - destruct (existsb (Z.eqb v) MODES) eqn:E.
    + apply existsb_Zeqb in E. left. split; [apply Hm; exact E|reflexivity].
    + apply existsb_Zeqb_false in E. right. split; [rewrite <- Hm; exact E|reflexivity].
Qed.

(** [repeat_area] writes [AA 20 04 s_min s_sec e_min e_sec SM] when all four
    values are in 0..59; when one is not, it raises [ValueError] before
    writing anything. *)
Theorem repeat_area_spec (a b c e : Z) (d : Driver) :
  (0 <= a <= 59 /\ 0 <= b <= 59 /\ 0 <= c <= 59 /\ 0 <= e <= 59 /\
   repeat_area a b c e d = (Ok tt, set_uart_tx (uart_tx d ++ _build_frame 0x20 [a; b; c; e]) d)) \/
  (~ (0 <= a <= 59 /\ 0 <= b <= 59 /\ 0 <= c <= 59 /\ 0 <= e <= 59) /\
   repeat_area a b c e d = (Err ValueError, d)).
Proof.
  unfold repeat_area. cbn [forallb].
  destruct ((0 <=? a) && (a <=? 59)) eqn:Ea;
  destruct ((0 <=? b) && (b <=? 59)) eqn:Eb;
  destruct ((0 <=? c) && (c <=? 59)) eqn:Ec;
  destruct ((0 <=? e) && (e <=? 59)) eqn:Ee; cbn [andb negb];
  repeat match goal with
         | H : _ = true |- _ => apply range_b in H
         | H : _ = false |- _ => apply range_b_false in H
         end;
  [left; repeat split; try lia; reflexivity
  |right; split; [tauto|reflexivity] .. ].
Qed.

Lemma short_name_char_ok_spec (ch : ascii) :
  short_name_char_ok ch = existsb (Ascii.eqb ch) name_chars.
Proof. destruct ch as [[] [] [] [] [] [] [] []]; reflexivity. Qed.

Lemma short_name_okb_spec (s : string) : short_name_okb s = true <-> short_name_ok s.
Proof.
  unfold short_name_okb, short_name_ok.
  rewrite andb_true_iff, Nat.eqb_eq, forallb_forall.
  split; intros [H1 H2]; split; auto; intros ch Hin.
  - specialize (H2 ch Hin). rewrite short_name_char_ok_spec, existsb_exists in H2.
    destruct H2 as [ch' [Hin' Heq]]. apply Ascii.eqb_eq in Heq. now subst.
  - rewrite short_name_char_ok_spec, existsb_exists. exists ch.
    split; [auto|apply Ascii.eqb_refl].
Qed.

Lemma combination_bytes_eq (l : list string) :
  combination_bytes l =
  if forallb short_name_okb l then Some (flat_map encode_ascii l) else None.
Proof.
  induction l as [|s l IH]; [reflexivity|].
  cbn [combination_bytes forallb flat_map].
  destruct (String.length s =? 2)%nat eqn:E1; cbn [negb].
  - destruct (forallb short_name_char_ok (list_ascii_of_string s)) eqn:E2; cbn [negb].
    + replace (short_name_okb s) with true by (unfold short_name_okb; now rewrite E1, E2).
      cbn [andb]. rewrite IH. destruct (forallb short_name_okb l); reflexivity.
    + replace (short_name_okb s) with false by (unfold short_name_okb; now rewrite E1, E2).
      reflexivity.
  - replace (short_name_okb s) with false by (unfold short_name_okb; now rewrite E1).
    reflexivity.
Qed.

Lemma encode_ascii_length (s : string) : length (encode_ascii s) = String.length s.
Proof. induction s; simpl; congruence. Qed.

(** [start_combination_playlist] sends one [0x1B] frame whose DATA is the
    concatenated ASCII of the names, two bytes per name, when the list is
    non-empty and every name is two characters from A-Z/0-9; otherwise it
    raises [ValueError] and writes nothing. *)
Theorem start_combination_playlist_spec (names : list string) (d : Driver) :
  (names <> [] /\ Forall short_name_ok names /\
   start_combination_playlist names d =
     (Ok tt, set_uart_tx (uart_tx d ++ _build_frame 0x1B (flat_map encode_ascii names)) d) /\
   length (flat_map encode_ascii names) = (2 * length names)%nat) \/
  ((names = [] \/ ~ Forall short_name_ok names) /\
   start_combination_playlist names d = (Err ValueError, d)).
Proof.
  assert (Hf : forall l, forallb short_name_okb l = true <-> Forall short_name_ok l).
  { intros l. rewrite forallb_forall, Forall_forall.
    split; intros H x Hx; apply short_name_okb_spec; auto. }
  unfold start_combination_playlist.
  destruct names as [|n ns] eqn:En; [right; split; [left; reflexivity|reflexivity]|].
  rewrite <- En in *. rewrite combination_bytes_eq.
  destruct (forallb short_name_okb names) eqn:E.
  - left. apply Hf in E. split; [subst; discriminate|]. split; [exact E|].
    split; [subst; reflexivity|].
    clear En Hf. induction E as [|x l [Hx _] _ IH]; [reflexivity|].
    cbn [flat_map length]. rewrite length_app, encode_ascii_length, IH. lia.
  - right. split; [right; intros H; apply Hf in H; congruence|subst; reflexivity].
Qed.


(** [_recv_response] only ever returns a frame that passes
    [_parse_response] and, when an expected command is given, carries that
    command code. *)
Theorem recv_response_sound (eo : option Z) (reads : list (option Z)) (r : bytes) :
  _recv_response eo reads = Some r ->
  exists p, _parse_response r = Some p /\ (forall c, eo = Some c -> p_cmd p = c).
Proof. apply recv_loop_sound. Qed.

Lemma recv_response_sound_witness :
  _recv_response (Some 0x0A) (map Some [0x00; 0xAA; 0x0A; 0x01; 0x01; 0xB6]) =
    Some [0xAA; 0x0A; 0x01; 0x01; 0xB6] /\
  exists p, _parse_response [0xAA; 0x0A; 0x01; 0x01; 0xB6] = Some p /\
            (forall c, Some 0x0A = Some c -> p_cmd p = c).
Proof.
  assert (H : _recv_response (Some 0x0A) (map Some [0x00; 0xAA; 0x0A; 0x01; 0x01; 0xB6]) =
              Some [0xAA; 0x0A; 0x01; 0x01; 0xB6]) by reflexivity.
  split; [exact H|]. exact (recv_response_sound _ _ _ H).
Defined.


(** [check_play_time_send] sends nothing, never raises and changes no
    attribute of the driver; given a well-formed [0x25] report with three
    DATA bytes it returns them as [(h, m, s)]. *)
Theorem check_play_time_send_spec (reads : list (option Z)) (d : Driver) :
  (exists r, check_play_time_send reads d = (Ok r, d)) /\
  (forall h m s rest, is_byte h -> is_byte m -> is_byte s ->
   check_play_time_send (map Some (_build_frame 0x25 [h; m; s]) ++ rest) d =
     (Ok (Some (h, m, s)), d)).
Proof.
  split.
  - unfold check_play_time_send, bind.
    destruct (_recv_response (Some 0x25) reads) as [[|x r]|] eqn:E;
      try (eexists; reflexivity).
    apply recv_loop_sound in E. destruct E as [p [Hp _]].
    unfold parse_m, ret. rewrite Hp. cbn beta iota.
    repeat match goal with |- context [match ?x with _ => _ end] => destruct x end;
      eexists; reflexivity.
  - intros h m s rest Hh Hm Hs.
    assert (Hpl : Forall is_byte [h; m; s])
      by (apply Forall_cons; [exact Hh|apply Forall_cons; [exact Hm|apply Forall_cons; [exact Hs|apply Forall_nil]]]).
    pose proof (build_frame_parses 0x25 [h; m; s] ltac:(unfold is_byte; lia) Hpl
                  ltac:(simpl; lia)) as Hparse.
    destruct (build_frame_shape 0x25 [h; m; s] ltac:(simpl; lia)) as [F0 [F4 Flen]].
    unfold check_play_time_send, _recv_response.
    rewrite seek_frame by assumption. unfold frame_done. rewrite Hparse.
    cbn [p_cmd]. rewrite Z.eqb_refl. unfold parse_m, bind.
    remember (_build_frame 0x25 [h; m; s]) as fr eqn:F.
    destruct fr as [|x fr']; [simpl in F4; lia|].
    rewrite Hparse. reflexivity.
Qed.

(** The four 16-bit queries ([query_total_tracks], [query_current_track],
    [query_folder_first_track], [query_folder_total_tracks]) decode a reply
    carrying the [_u16] bytes of [v] back to [v], for every [v] in 0..65535;
    they send their request frame and cache nothing. *)
Theorem u16_queries_decode (v : Z) (rest : list (option Z)) (d : Driver) :
  0 <= v <= 65535 ->
  forall q, In q [QueryTotalTracks; QueryCurrentTrack; QueryFolderFirstTrack;
                  QueryFolderTotalTracks] ->
  run_query q (map Some (_build_frame (query_cmd q) [v / 256; v mod 256]) ++ rest) d =
    (Ok (Some (QInt v)), set_uart_tx (uart_tx d ++ _build_frame (query_cmd q) []) d).
Proof.
  intros Hv q Hq.
  assert (HL : 0 <= v mod 256 < 256) by (apply Z.mod_pos_bound; lia).
  assert (HH : 0 <= v / 256 < 256)
    by (split; [apply Z.div_pos; lia|apply Z.div_lt_upper_bound; lia]).
  assert (Hu : forall cmd, is_byte cmd ->
    query_u16 cmd (map Some (_build_frame cmd [v / 256; v mod 256]) ++ rest) d =
      (Ok (Some (QInt v)), set_uart_tx (uart_tx d ++ _build_frame cmd []) d)).
  { intros cmd Hc. unfold query_u16.
    rewrite query_with_reply; [|exact Hc| |simpl; lia].
    - cbn [length Nat.eqb]. unfold ret. rewrite be16_split by lia.
      rewrite Z.mul_comm, <- Z.div_mod by lia. reflexivity.
    - unfold is_byte. repeat constructor; lia. }
  simpl in Hq. destruct Hq as [<-|[<-|[<-|[<-|[]]]]]; apply Hu; unfold is_byte; simpl; lia.
Qed.

Lemma u16_queries_decode_witness :
  0 <= 513 <= 65535 /\
  run_query QueryTotalTracks (map Some [0xAA; 0x0C; 0x02; 0x02; 0x01; 0xBB]) default_driver =
    (Ok (Some (QInt 513)), set_uart_tx ([] ++ [0xAA; 0x0C; 0x00; 0xB6]) default_driver).
Proof.
  split; [lia|].
  rewrite <- (app_nil_r (map Some [0xAA; 0x0C; 0x02; 0x02; 0x01; 0xBB])).
  apply (u16_queries_decode 513 [] default_driver ltac:(lia) QueryTotalTracks).
  simpl; tauto.
Defined.



(** [query_current_disk] caches the single DATA byte of a well-formed
    [0x0A] reply in [current_disk] and returns it, whatever its value;
    [query_online_disks] returns its single byte and caches nothing;
    [query_current_track_time] returns its three bytes as [(h, m, s)] and
    caches nothing. *)
Theorem byte_queries_reply (b h m s : Z) (rest : list (option Z)) (d : Driver) :
  is_byte b -> is_byte h -> is_byte m -> is_byte s ->
  query_current_disk (map Some (_build_frame 0x0A [b]) ++ rest) d =
    (Ok (Some (QInt b)), set_current_disk b (set_uart_tx (uart_tx d ++ _build_frame 0x0A []) d)) /\
  query_online_disks (map Some (_build_frame 0x09 [b]) ++ rest) d =
    (Ok (Some (QInt b)), set_uart_tx (uart_tx d ++ _build_frame 0x09 []) d) /\
  query_current_track_time (map Some (_build_frame 0x24 [h; m; s]) ++ rest) d =
    (Ok (Some (QTime h m s)), set_uart_tx (uart_tx d ++ _build_frame 0x24 []) d).
Proof.
  intros Hb Hh Hm Hs.
  unfold query_current_disk, query_online_disks, query_current_track_time.
  rewrite !query_with_reply;
    try (unfold is_byte; lia);
    try (apply Forall_cons; [assumption|]);
    try (apply Forall_cons; [assumption|]);
    try (apply Forall_cons; [assumption|]);
    try apply Forall_nil; try (simpl; lia).
  repeat split; reflexivity.
Qed.

Lemma byte_queries_reply_witness :
  (is_byte 0x02 /\ is_byte 0x00 /\ is_byte 0x03 /\ is_byte 0x3B) /\
  query_current_disk (map Some (_build_frame 0x0A [0x02]) ++ []) default_driver =
    (Ok (Some (QInt 0x02)),
     set_current_disk 0x02 (set_uart_tx ([] ++ _build_frame 0x0A []) default_driver)).
Proof.
  assert (H : is_byte 0x02 /\ is_byte 0x00 /\ is_byte 0x03 /\ is_byte 0x3B)
    by (unfold is_byte; lia).
  split; [exact H|]. destruct H as [H1 [H2 [H3 H4]]].
  exact (proj1 (byte_queries_reply 0x02 0x00 0x03 0x3B [] default_driver H1 H2 H3 H4)).
Defined.

Lemma chars_ok_replace_dot (s : string) : chars_ok (replace_dot s) = chars_ok s.
Proof.
  induction s as [|c s IH]; [reflexivity|]. cbn [replace_dot chars_ok]. rewrite IH.
  destruct (Ascii.eqb c "."%char) eqn:E; [|reflexivity].
  apply Ascii.eqb_eq in E. now subst.
Qed.

Lemma seg_loop_replace_dot (s : string) (acc : list ascii) :
  seg_loop (replace_dot s) acc = seg_loop s acc.
Proof.
  revert acc. induction s as [|c s IH]; intros acc; [reflexivity|].
  cbn [replace_dot seg_loop].
  destruct (Ascii.eqb c "."%char) eqn:E.
  - apply Ascii.eqb_eq in E. now subst.
  - destruct (Ascii.eqb c "/"%char); [|destruct (existsb (Ascii.eqb c) ["*"; "."]%char)];
      rewrite ?IH; reflexivity.
Qed.

Lemma validate_path_replace_dot (p : string) :
  _validate_path (replace_dot p) = None <-> _validate_path p = None.
Proof.
  destruct p as [|c tl]; [tauto|].
  unfold _validate_path. cbn [replace_dot].
  rewrite <- (chars_ok_replace_dot (String c tl)). cbn [replace_dot].
  rewrite seg_loop_replace_dot.
  destruct (Ascii.eqb c "."%char) eqn:E.
  - apply Ascii.eqb_eq in E. subst c. cbn [Ascii.eqb Bool.eqb negb]. tauto.
  - destruct (negb (c =? "/")%char); [tauto|].
    destruct (negb (chars_ok (String c (replace_dot tl)))); [tauto|].
    destruct (negb (seg_loop tl [])); [tauto|]. split; discriminate.
Qed.

(** Replacing ['.'] by ['*'] never changes whether a path is accepted: with a
    valid disk, [play_disk_path] and [insert_path] succeed exactly when
    [_validate_path] accepts the path as given. *)
Theorem path_commands_accept (disk : Z) (path : string) (d : Driver) :
  In disk [DISK_USB; DISK_SD; DISK_FLASH] ->
  (fst (play_disk_path disk path d) = Ok tt <-> _validate_path path <> None) /\
  (fst (insert_path disk path d) = Ok tt <-> _validate_path path <> None).
Proof.
  intros Hd. apply existsb_Zeqb in Hd.
  pose proof (validate_path_replace_dot path) as Hr.
  unfold play_disk_path, insert_path, _validate_disk, validate_path_m, bind, ret, raise.
  rewrite Hd.
  destruct (_validate_path (replace_dot path)) eqn:E.
  - assert (_validate_path path <> None) by (intros H; apply Hr in H; discriminate).
    repeat split; auto.
  - assert (_validate_path path = None) by (apply Hr; reflexivity).
    repeat split; try discriminate; intros H'; contradiction.
Qed.

Lemma path_commands_accept_witness :
  In DISK_SD [DISK_USB; DISK_SD; DISK_FLASH] /\
  (fst (play_disk_path DISK_SD "/MUSIC/01.MP3" default_driver) = Ok tt <->
   _validate_path "/MUSIC/01.MP3" <> None).
Proof.
  assert (H : In DISK_SD [DISK_USB; DISK_SD; DISK_FLASH]) by (simpl; tauto).
  split; [exact H|]. exact (proj1 (path_commands_accept DISK_SD "/MUSIC/01.MP3" default_driver H)).
Defined.

Lemma tick_branch_ok (st : option QResult) (d1 : Driver) :
  exists d2, (match st with Some (QInt 1) => stop d1 | _ => play d1 end) = (Ok tt, d2).
Proof.
  destruct st as [[v|s|h m s]|]; try (eexists; reflexivity).
  destruct v as [|[p|p|]|p]; eexists; reflexivity.
Qed.


(** Started with [0 <= time_segment < 25] (as [__init__] sets it), a tick
    keeps [time_segment] in that range. *)
Theorem tick_time_segment_bounded (t : MusicTask) (reads : list (option Z)) (d : Driver) :
  0 <= time_segment t < 25 ->
  0 <= time_segment (snd (fst (tick t reads d))) < 25.
Proof.
  intros H. unfold tick. cbv zeta.
  assert (Hfire : forall ts, 0 <= ts < 25 ->
    0 <= time_segment (snd (fst
      (match query_status reads d with
       | (Ok st, d1) =>
           let '(r, d2) := match st with
                           | Some (QInt 1) => stop d1
                           | _ => play d1
                           end in (r, mkTask 0 ts, d2)
       | (Err e, d1) => (Err e, mkTask 0 ts, d1)
       end))) < 25).
  { intros ts Hts. destruct (query_status reads d) as [[st|e] d1].
    - destruct (tick_branch_ok st d1) as [d2 Hd2]. rewrite Hd2. exact Hts.
    - exact Hts. }
  destruct (count t =? 0) eqn:E0; cbn [negb].
  - destruct (3 <=? count t); [apply Hfire|]; exact H.
  - destruct (25 <=? time_segment t + 1) eqn:E25; cbn [count time_segment].
    + cbn. lia.
    + apply Z.leb_gt in E25.
      destruct (3 <=? count t); [apply Hfire|cbn]; lia.
Qed.

Lemma tick_time_segment_bounded_witness :
  0 <= time_segment (mkTask 2 24) < 25 /\
  0 <= time_segment (snd (fst (tick (mkTask 2 24) [] default_driver))) < 25.
Proof.
  assert (H : 0 <= time_segment (mkTask 2 24) < 25) by (cbn; lia).
  split; [exact H|]. exact (tick_time_segment_bounded (mkTask 2 24) [] default_driver H).
Defined.

(** In a tick that fires, [musicTask.tick()] sends the status query; on a
    well-formed reply with status byte [st] it then sends [stop] when
    [st = 1] and [play] otherwise, and on a timeout it sends [play]. *)
Theorem tick_fires (t : MusicTask) (st : Z) (rest : list (option Z)) (d : Driver) :
  3 <= count t -> time_segment t + 1 < 25 -> is_byte st ->
  tick t (map Some (_build_frame 0x01 [st]) ++ rest) d =
    (Ok tt, mkTask 0 (time_segment t + 1),
     set_play_state (if st =? 1 then PLAY_STOP else PLAY_PLAY)
       (set_uart_tx (uart_tx d ++ _build_frame 0x01 [] ++
                     _build_frame (if st =? 1 then 0x04 else 0x02) []) d)) /\
  tick t [] d =
    (Ok tt, mkTask 0 (time_segment t + 1),
     set_play_state PLAY_PLAY
       (set_uart_tx (uart_tx d ++ _build_frame 0x01 [] ++ _build_frame 0x02 []) d)).
Proof.
  intros Hc Hts Hst.
  assert (E0 : (count t =? 0) = false) by (apply Z.eqb_neq; lia).
  assert (E25 : (25 <=? time_segment t + 1) = false) by (apply Z.leb_gt; lia).
  assert (E3 : (3 <=? count t) = true) by (apply Z.leb_le; lia).
  split.
  - unfold tick. cbv zeta. rewrite E0, E25. cbn [negb count time_segment]. rewrite E3.
    unfold query_status.
    rewrite query_with_reply
      by first [unfold is_byte; lia | constructor; [exact Hst|constructor] | cbn; lia].
    destruct (st =? 1) eqn:E1.
    + apply Z.eqb_eq in E1. subst st. cbn. now rewrite <- app_assoc.
    + apply Z.eqb_neq in E1.
      unfold bind, modify, ret. cbn beta iota.
      transitivity (let '(r, d2) := play (set_play_state st
                      (set_uart_tx (uart_tx d ++ _build_frame 1 []) d)) in
                    (r, mkTask 0 (time_segment t + 1), d2)).
      * destruct st as [|[p|p|]|p]; try reflexivity; contradiction.
      * cbn. now rewrite <- app_assoc.
  - unfold tick. cbv zeta. rewrite E0, E25. cbn [negb count time_segment]. rewrite E3.
    cbn. now rewrite <- app_assoc.
Qed.

Lemma tick_fires_witness :
  3 <= count (mkTask 3 4) /\ time_segment (mkTask 3 4) + 1 < 25 /\ is_byte 1 /\
  tick (mkTask 3 4) (map Some (_build_frame 0x01 [1])) default_driver =
    (Ok tt, mkTask 0 5,
     set_play_state PLAY_STOP
       (set_uart_tx (uart_tx default_driver ++ _build_frame 0x01 [] ++
                     _build_frame 0x04 []) default_driver)).
Proof.
  assert (H1 : 3 <= count (mkTask 3 4)) by (cbn; lia).
  assert (H2 : time_segment (mkTask 3 4) + 1 < 25) by (cbn; lia).
  assert (H3 : is_byte 1) by (unfold is_byte; lia).
  split; [exact H1|]. split; [exact H2|]. split; [exact H3|].
  pose proof (proj1 (tick_fires (mkTask 3 4) 1 [] default_driver H1 H2 H3)) as H.
  rewrite app_nil_r in H. exact H.
Defined.

(** [prev_track], [next_track], [end_insert], [volume_up], [volume_down],
    [end_repeat], [end_combination_playlist], [enable_play_time_send] and
    [disable_play_time_send] each write the four bytes
    [AA cmd 00 SM] with [SM = (0xAA + cmd) & 0xFF] and change no attribute:
    in particular [volume_up] and [volume_down] leave the cached [volume]
    as it was.  [pause] and [stop] write [AA 03 00 AD] and [AA 04 00 AE]
    and set [play_state] to [PLAY_PAUSE] and [PLAY_STOP]. *)
Theorem fixed_commands_frames (d : Driver) :
  Forall (fun (mc : M unit * Z) =>
            (fst mc) d = (Ok tt, set_uart_tx (uart_tx d ++
                            [0xAA; snd mc; 0x00; Z.land (0xAA + snd mc) 0xFF]) d))
    [(prev_track, 0x05); (next_track, 0x06); (end_insert, 0x10);
     (volume_up, 0x14); (volume_down, 0x15); (end_repeat, 0x21);
     (end_combination_playlist, 0x1C); (enable_play_time_send, 0x25);
     (disable_play_time_send, 0x26)] /\
  volume (snd (volume_up d)) = volume d /\
  volume (snd (volume_down d)) = volume d /\
  pause d = (Ok tt, set_play_state PLAY_PAUSE (set_uart_tx (uart_tx d ++ [0xAA; 0x03; 0x00; 0xAD]) d)) /\
  stop d = (Ok tt, set_play_state PLAY_STOP (set_uart_tx (uart_tx d ++ [0xAA; 0x04; 0x00; 0xAE]) d)).
Proof.
  split; [|repeat split].
  repeat apply Forall_cons; try apply Forall_nil; reflexivity.
Qed.

Lemma check_play_time_send_spec_witness :
  check_play_time_send (map Some (_build_frame 0x25 [0; 3; 41])) default_driver =
    (Ok (Some (0, 3, 41)), default_driver).
Proof.
  pose proof (proj2 (check_play_time_send_spec [] default_driver) 0 3 41 [])
    as H.
  rewrite app_nil_r in H. apply H; unfold is_byte; lia.
Defined.
